(** * defx-git: the git status column of defx

    A shallow embedding of [rplugin/python3/defx/column/git.py] (class
    [Column]) and the properties of its status classification, status line
    ordering, cache lookup and cache refresh.

    Python values are modelled as follows.
    - A [str] is the list of its Unicode code points ([N]); [lit] turns a
      literal into a [str].  [bytes] are lists of [Byte.byte].
    - An operation that can raise returns a [result]: [Ok v] or [Raise e].
    - The two mutable attributes of a [Column] ([cache], [git_root]) are
      threaded through the methods by the state monad [M], which also records
      the external calls a method makes (sub-processes, vim commands).
    - The outside world (the outcome of a sub-process, of a vim command, the
      identity the interpreter gives to a new [str] object) is an argument
      [World] of the methods that reach it. *)

From Stdlib Require Import NArith ZArith Ascii String Lia.
From Stdlib.Strings Require Import Byte.
From stdpp Require Import base option list sorting gmap.

Local Open Scope N_scope.
Local Open Scope nat_scope.

(** ** Python values, exceptions *)

Module Py.

Definition char := N.
Definition str := list N.

Definition chr (a : ascii) : char := N_of_ascii a.
Definition lit (s : string) : str := chr <$> list_ascii_of_string s.

(** The exceptions that the embedded code can meet. [OSError] stands for the
    [OSError]s other than the two subclasses named here. *)
Inductive exn :=
| IndexError
| KeyError
| UnicodeDecodeError
| CalledProcessError
| FileNotFoundError
| NotADirectoryError
| OSError
| NvimError.

Inductive result (A : Type) :=
| Ok (a : A)
| Raise (e : exn).
Arguments Ok {A} a.
Arguments Raise {A} e.

#[export] Instance exn_eq_dec : EqDecision exn.
Proof. solve_decision. Defined.

#[export] Instance result_ret : MRet result := @Ok.
#[export] Instance result_bind : MBind result := fun A B f m =>
  match m with
  | Ok a => f a
  | Raise e => Raise e
  end.
#[export] Instance result_fmap : FMap result := fun A B f m =>
  match m with
  | Ok a => Ok (f a)
  | Raise e => Raise e
  end.

(** [x or y] and [x and y] evaluate [y] only when [x] does not decide. *)
Definition or_ (x y : result bool) : result bool :=
  b ← x; if b : bool then Ok true else y.
Definition and_ (x y : result bool) : result bool :=
  b ← x; if b : bool then y else Ok false.
Definition not_ (x : result bool) : result bool := negb <$> x.

(** [s[i]] for [i >= 0]. *)
Definition getitem (s : str) (i : nat) : result char :=
  match s !! i with
  | Some c => Ok c
  | None => Raise IndexError
  end.

(** [x == c] for a character [x] and a one-character literal [c]. *)
Definition is_char (x : char) (c : ascii) : bool := (x =? chr c)%N.

(** [s[i] == c] *)
Definition item_is (s : str) (i : nat) (c : ascii) : result bool :=
  x ← getitem s i; Ok (is_char x c).

(** [s.startswith(p)] *)
Fixpoint startswith (s p : str) : bool :=
  match p, s with
  | [], _ => true
  | _ :: _, [] => false
  | c :: p', d :: s' => (c =? d)%N && startswith s' p'
  end.

(** [s.replace(old, new)]: the occurrences of [old] are found from left to
    right and do not overlap.  [skip] counts the characters of an occurrence
    that are still to be passed over.  With an empty [old], [new] is put
    before every character and at the end. *)
Fixpoint replace_from (old new : str) (skip : nat) (s : str) : str :=
  match s with
  | [] => []
  | c :: s' =>
    match skip with
    | S k => replace_from old new k s'
    | O =>
      if startswith s old
      then new ++ replace_from old new (length old - 1) s'
      else c :: replace_from old new 0 s'
    end
  end.

Definition replace (s old new : str) : str :=
  match old with
  | [] => foldr (fun c r => new ++ c :: r) new s
  | _ :: _ => replace_from old new 0 s
  end.

(** [s.split(sep)] for a one-character separator. *)
Fixpoint split (s : str) (sep : char) : list str :=
  match s with
  | [] => [[]]
  | c :: s' =>
    if (c =? sep)%N then [] :: split s' sep
    else match split s' sep with
         | piece :: pieces => (c :: piece) :: pieces
         | [] => [[c]]
         end
  end.

(** [s.strip(c)] for a one-character argument. *)
Fixpoint lstrip (s : str) (c : char) : str :=
  match s with
  | [] => []
  | d :: s' => if (d =? c)%N then lstrip s' c else s
  end.
Definition rstrip (s : str) (c : char) : str := reverse (lstrip (reverse s) c).
Definition strip (s : str) (c : char) : str := rstrip (lstrip s c) c.

(** [format(s, '<n')] for a [str] [s] and [n >= 0]: [s] itself when it has
    [n] characters or more, otherwise [s] followed by spaces up to width
    [n]. *)
Definition format_ljust (s : str) (n : nat) : str :=
  s ++ replicate (n - length s) (chr " ").

(** [b.decode('utf-8')] (strict): the well-formed byte sequences of the
    Unicode standard; anything else raises. *)
Definition cont (b : N) : bool := (0x80 <=? b)%N && (b <=? 0xBF)%N.
Definition between (lo b hi : N) : bool := (lo <=? b)%N && (b <=? hi)%N.

Fixpoint decode_points (bs : list N) : result str :=
  match bs with
  | [] => Ok []
  | b0 :: r0 =>
    if (b0 <? 0x80)%N then cons b0 <$> decode_points r0
    else if between 0xC2 b0 0xDF then
      match r0 with
      | b1 :: r1 =>
        if cont b1
        then cons ((b0 - 0xC0) * 64 + (b1 - 0x80))%N <$> decode_points r1
        else Raise UnicodeDecodeError
      | _ => Raise UnicodeDecodeError
      end
    else if between 0xE0 b0 0xEF then
      match r0 with
      | b1 :: b2 :: r2 =>
        if between (if (b0 =? 0xE0)%N then 0xA0 else 0x80) b1
                   (if (b0 =? 0xED)%N then 0x9F else 0xBF) && cont b2
        then cons ((b0 - 0xE0) * 4096 + (b1 - 0x80) * 64 + (b2 - 0x80))%N
               <$> decode_points r2
        else Raise UnicodeDecodeError
      | _ => Raise UnicodeDecodeError
      end
    else if between 0xF0 b0 0xF4 then
      match r0 with
      | b1 :: b2 :: b3 :: r3 =>
        if between (if (b0 =? 0xF0)%N then 0x90 else 0x80) b1
                   (if (b0 =? 0xF4)%N then 0x8F else 0xBF)
           && cont b2 && cont b3
        then cons ((b0 - 0xF0) * 262144 + (b1 - 0x80) * 4096
                   + (b2 - 0x80) * 64 + (b3 - 0x80))%N
               <$> decode_points r3
        else Raise UnicodeDecodeError
      | _ => Raise UnicodeDecodeError
      end
    else Raise UnicodeDecodeError
  end.

Definition decode_utf8 (b : list byte) : result str :=
  decode_points (Byte.to_N <$> b).

(** The bytes of an ASCII literal, and the output of a command that prints
    the given lines. *)
Definition blit (s : string) : list byte := list_byte_of_string s.
Definition printed (lines : list string) : list byte :=
  concat ((fun line => blit line ++ [x0a]) <$> lines).

End Py.
Import Py.

(** ** The status code classifier *)

(** [Column.get_indicator_name] *)
Definition get_indicator_name (us them : str) : str :=
  if bool_decide (us = lit "?") && bool_decide (them = lit "?") then
    lit "Untracked"
  else if bool_decide (us = lit " ") && bool_decide (them = lit "M") then
    lit "Modified"
  else if bool_decide (us ∈ [lit "M"; lit "A"; lit "C"]) then
    lit "Staged"
  else if bool_decide (us = lit "R") then
    lit "Renamed"
  else if bool_decide (us = lit "!") then
    lit "Ignored"
  else if bool_decide (us = lit "U") || bool_decide (them = lit "U")
          || bool_decide (us = lit "A") && bool_decide (them = lit "A")
          || bool_decide (us = lit "D") && bool_decide (them = lit "D") then
    lit "Unmerged"
  else
    lit "Unknown".

(** ** Sorting: [sorted(l, key=cmp_to_key(cmp))]

    [cmp_to_key] wraps every element in a key object whose [<] calls [cmp];
    [sorted] copies the list and sorts the copy with [list.sort], which
    compares keys with [<] only. *)

Definition cmp_to_key {A} (mycmp : A -> A -> result Z) (x y : A)
  : result bool :=
  c ← mycmp x y; Ok (c <? 0)%Z.

(** [list.sort] of CPython (Objects/listobject.c), for a list of fewer than
    64 elements.  For such a list [merge_compute_minrun] gives the length of
    the list, so that the sort is one natural run found by [count_run],
    reversed when it descends, and the remaining elements put into it one
    after the other by [binarysort] ([count_run] and [binarysort] are the
    routines of the releases up to 3.12).  Longer lists are cut into several
    runs that are then merged; the merging is not part of this model, and
    every statement below about the outcome of a sort is about lists of fewer
    than 64 elements. *)
Section list_sort.
Context {A : Type} (islt : A -> A -> result bool).

(** [count_run], descending case: how many more elements continue a run
    whose last element is [prev] (each one [<] the one before it). *)
Fixpoint run_descending (prev : A) (l : list A) : result nat :=
  match l with
  | [] => Ok 0
  | x :: l' =>
    b ← islt x prev;
    if b : bool then S <$> run_descending x l' else Ok 0
  end.

(** [count_run], ascending case: each one not [<] the one before it. *)
Fixpoint run_ascending (prev : A) (l : list A) : result nat :=
  match l with
  | [] => Ok 0
  | x :: l' =>
    b ← islt x prev;
    if b : bool then Ok 0 else S <$> run_ascending x l'
  end.

(** [count_run]: the length of the run at the start of [l], and whether it
    is descending. *)
Definition count_run (l : list A) : result (nat * bool) :=
  match l with
  | [] => Ok (0, false)
  | [x] => Ok (1, false)
  | x :: y :: l' =>
    b ← islt y x;
    if b : bool
    then n ← run_descending y l'; Ok (2 + n, true)
    else n ← run_ascending y l'; Ok (2 + n, false)
  end.

(** The binary search of [binarysort]: where [pivot] belongs in the sorted
    slice [a[l:r]].  [fuel] bounds the number of halvings. *)
Fixpoint bisect (fuel : nat) (pivot : A) (a : list A) (l r : nat)
  : result nat :=
  match fuel with
  | O => Ok l
  | S fuel' =>
    if bool_decide (l < r) then
      let p := l + (r - l) / 2 in
      match a !! p with
      | Some x =>
        b ← islt pivot x;
        if b : bool
        then bisect fuel' pivot a l p
        else bisect fuel' pivot a (p + 1) r
      | None => Ok l
      end
    else Ok l
  end.

(** [binarysort]: [done] is sorted; the elements of [todo] are inserted
    into it from left to right. *)
Fixpoint binarysort (done todo : list A) : result (list A) :=
  match todo with
  | [] => Ok done
  | pivot :: todo' =>
    l ← bisect (length done) pivot done 0 (length done);
    binarysort (take l done ++ pivot :: drop l done) todo'
  end.

Definition list_sort (l : list A) : result (list A) :=
  if bool_decide (length l < 2) then Ok l
  else
    '(n, descending) ← count_run l;
    let run := take n l in
    binarysort (if descending : bool then reverse run else run) (drop n l).
End list_sort.

Definition sorted {A} (l : list A) (key_lt : A -> A -> result bool)
  : result (list A) :=
  list_sort key_lt l.

(** ** The status line ordering *)

(** [Column.sort] *)
Definition sort (a b : str) : result Z :=
  c ← or_ (item_is a 0 "U") (item_is a 1 "U");
  if c : bool then Ok (-1)%Z
  else
    c ← and_ (or_ (item_is a 0 "M") (item_is a 1 "M"))
             (not_ (or_ (item_is b 0 "U") (item_is b 1 "U")));
    if c : bool then Ok (-1)%Z
    else Ok 1%Z.

(** ** The column object and its world *)

(** A [str] object: its identity and its value.  The operator [is] compares
    identities. *)
Record Str := { ident : nat; value : str }.

(** [x is not y], for [x] and [y] each [None] or a [str] object. *)
Definition is_not (x y : option Str) : bool :=
  match x, y with
  | None, None => false
  | Some a, Some b => negb (ident a =? ident b)
  | _, _ => true
  end.

(** [f'{x}'] for [x] either [None] or a [str]. *)
Definition fstring (x : option Str) : str :=
  match x with
  | None => lit "None"
  | Some s => value s
  end.

(** The attributes of a [Column].  [indicators], [column_length] and
    [show_ignored] are read from the settings once and never assigned again;
    [column_length] is a natural number. *)
Record Column := {
  cache : list str;
  git_root : option Str;
  indicators : gmap str str;
  column_length : nat;
  show_ignored : bool;
}.

(** The candidate that defx hands to the column: a dictionary in which
    ['is_root'] may be absent.  [action__path] is
    [str(candidate['action__path'])] and [is_directory] the truth value of
    [candidate['is_directory']]. *)
Record Candidate := {
  is_root : option bool;
  action__path : str;
  is_directory : bool;
}.

(** An external call and what answers it.  [subprocess_run cmd cwd] is the
    outcome of [subprocess.run(cmd, stdout=PIPE, ..., cwd=cwd)]: an exception,
    or the bytes of the captured output (the exit status is not looked at).
    [fresh_ident] is the identity of the [str] object that [find_git_root]
    builds. *)
Inductive event :=
| SubprocessRun (cmd : list str) (cwd : option str)
| VimCommand (command : str).

Record World := {
  subprocess_run : list str -> option str -> result (list byte);
  vim_command : str -> result unit;
  fresh_ident : nat;
}.

(** A method: from the object before the call to the outcome, the object after
    the call and the external calls made, in order. *)
Definition M (A : Type) : Type := Column -> result A * Column * list event.

#[export] Instance M_ret : MRet M := fun A a self => (Ok a, self, []).
#[export] Instance M_bind : MBind M := fun A B f m self =>
  match m self with
  | (Ok a, self', calls) =>
    let '(r, self'', calls') := f a self' in (r, self'', calls ++ calls')
  | (Raise e, self', calls) => (Raise e, self', calls)
  end.

Definition this : M Column := fun self => (Ok self, self, []).
Definition lift {A} (r : result A) : M A := fun self => (r, self, []).
Definition with_cache (c : list str) (self : Column) : Column :=
  {| cache := c; git_root := git_root self; indicators := indicators self;
     column_length := column_length self; show_ignored := show_ignored self |}.
Definition with_git_root (g : option Str) (self : Column) : Column :=
  {| cache := cache self; git_root := g; indicators := indicators self;
     column_length := column_length self; show_ignored := show_ignored self |}.
(** [self.cache = c] and [self.git_root = g] *)
Definition set_cache (c : list str) : M unit := fun self =>
  (Ok tt, with_cache c self, []).
Definition set_git_root (g : option Str) : M unit := fun self =>
  (Ok tt, with_git_root g self, []).
Definition run (w : World) (cmd : list str) (cwd : option str)
  : M (list byte) := fun self =>
  (subprocess_run w cmd cwd, self, [SubprocessRun cmd cwd]).
Definition command (w : World) (c : str) : M unit := fun self =>
  (vim_command w c, self, [VimCommand c]).

(** [try: x = m  except exc: ...]: [None] when [m] raised [exc]. *)
Definition try_except {A} (m : M A) (exc : exn) : M (option A) := fun self =>
  match m self with
  | (Ok a, self', calls) => (Ok (Some a), self', calls)
  | (Raise e, self', calls) =>
    if bool_decide (e = exc) then (Ok None, self', calls)
    else (Raise e, self', calls)
  end.

Definition newline : char := 10%N.
Definition dquote : char := 34%N.

(** [d[k]] for a dictionary [d]. *)
Definition dict_getitem (d : gmap str str) (k : str) : result str :=
  match d !! k with
  | Some v => Ok v
  | None => Raise KeyError
  end.

(** ** The methods of [Column] *)

(** [Column.format] *)
Definition format (self : Column) (column : str) : str :=
  format_ljust column (column_length self).

(** The loop of [Column.find_in_cache]. *)
Fixpoint first_match (path : str) (items : list str) : str :=
  match items with
  | [] => []
  | item :: items' =>
    if startswith (drop 3 item) path then item
    else first_match path items'
  end.

(** The relative path that [Column.find_in_cache] looks for. *)
Definition cache_key (self : Column) (candidate : Candidate) : str :=
  let path :=
    replace (action__path candidate) (fstring (git_root self) ++ lit "/") [] in
  path ++ (if is_directory candidate then lit "/" else []).

(** [Column.find_in_cache] *)
Definition find_in_cache (self : Column) (candidate : Candidate) : str :=
  first_match (cache_key self candidate) (cache self).

(** The command of [Column.cache_status]. *)
Definition status_cmd (self : Column) : list str :=
  [lit "git"; lit "status"; lit "--porcelain"; lit "-u"]
  ++ (if show_ignored self then [lit "--ignored"] else []).

(** [[line for line in decoded.split('\n') if line != '']] *)
Definition status_lines (decoded : str) : list str :=
  filter (fun line => line ≠ []) (split decoded newline).

(** [Column.cache_status] *)
Definition cache_status (w : World) (path : option str) : M unit :=
  set_cache [];;
  self ← this;
  p ← try_except (run w (status_cmd self) path) CalledProcessError;
  match p with
  | None => mret tt
  | Some stdout =>
    decoded ← lift (decode_utf8 stdout);
    if bool_decide (decoded = []) then mret tt
    else
      let results := status_lines decoded in
      lines ← lift (sorted results (cmp_to_key sort));
      set_cache lines
  end.

(** The command of [Column.find_git_root]. *)
Definition rev_parse_cmd : list str :=
  [lit "git"; lit "rev-parse"; lit "--show-toplevel"].

(** [Column.find_git_root] *)
Definition find_git_root (w : World) (path : str) : M (option Str) :=
  p ← try_except (run w rev_parse_cmd (Some path)) CalledProcessError;
  match p with
  | None => mret None
  | Some stdout =>
    decoded ← lift (decode_utf8 stdout);
    if bool_decide (decoded = []) then mret None
    else mret (Some {| ident := fresh_ident w;
                       value := strip decoded newline |})
  end.

(** The message of [Column.get]. *)
Definition echomsg (path : str) : str :=
  lit "echomsg " ++ [dquote] ++ lit "detect git root target" ++ path
  ++ [dquote].

(** [Column.get], from [if not self.cache:] to the end. *)
Definition get_entry (candidate : Candidate) : M str :=
  self ← this;
  let default := format self [] in
  if bool_decide (cache self = []) then mret default
  else
    let entry := find_in_cache self candidate in
    if bool_decide (entry = []) then mret default
    else
      us ← lift (getitem entry 0);
      them ← lift (getitem entry 1);
      icon ← lift (dict_getitem (indicators self)
                                (get_indicator_name [us] [them]));
      mret (format self icon).

(** [Column.get] *)
Definition get (w : World) (candidate : Candidate) : M str :=
  self ← this;
  let default := format self [] in
  if bool_decide (is_root candidate = Some true) then
    if match git_root self with
       | Some root => startswith (action__path candidate) (value root)
       | None => false
       end
    then mret default
    else
      git_root' ← find_git_root w (action__path candidate);
      command w (echomsg (action__path candidate));;
      self ← this;
      if is_not git_root' (git_root self) then
        set_git_root git_root';;
        cache_status w (value <$> git_root');;
        mret default
      else get_entry candidate
  else get_entry candidate.


(** ** The classifier as the specification words it *)

Inductive IndicatorCategory :=
| Untracked | Modified | Staged | Renamed | Ignored | Unmerged | Unknown.

Definition category_name (c : IndicatorCategory) : str :=
  match c with
  | Untracked => lit "Untracked"
  | Modified => lit "Modified"
  | Staged => lit "Staged"
  | Renamed => lit "Renamed"
  | Ignored => lit "Ignored"
  | Unmerged => lit "Unmerged"
  | Unknown => lit "Unknown"
  end.

Definition categories : list IndicatorCategory :=
  [Untracked; Modified; Staged; Renamed; Ignored; Unmerged; Unknown].

(** The precedence rules of the specification, in their order: a condition on
    (indexCode, worktreeCode) and the category it selects. *)
Definition precedence_rules
  : list ((char -> char -> bool) * IndicatorCategory) :=
  [ (fun i w => is_char i "?" && is_char w "?", Untracked);
    (fun i w => is_char i " " && is_char w "M", Modified);
    (fun i w => is_char i "M" || is_char i "A" || is_char i "C", Staged);
    (fun i w => is_char i "R", Renamed);
    (fun i w => is_char i "!", Ignored);
    (fun i w => is_char i "U" || is_char w "U"
                || (is_char i "A" && is_char w "A")
                || (is_char i "D" && is_char w "D"), Unmerged) ].

(** First match wins; otherwise Unknown. *)
Fixpoint first_rule (rules : list ((char -> char -> bool) * IndicatorCategory))
    (indexCode worktreeCode : char) : IndicatorCategory :=
  match rules with
  | [] => Unknown
  | (applies, category) :: rules' =>
    if applies indexCode worktreeCode then category
    else first_rule rules' indexCode worktreeCode
  end.

Definition classify : char -> char -> IndicatorCategory :=
  first_rule precedence_rules.

(** ** The tiers of the status line ordering *)

(** Whether one of the two status codes of a line is [c]. *)
Definition flagged (c : ascii) (line : str) : Prop :=
  line !! 0 = Some (chr c) \/ line !! 1 = Some (chr c).

#[export] Instance flagged_dec c line : Decision (flagged c line).
Proof. unfold flagged. apply _. Defined.

(** 0 for a line with a 'U' code, 1 for another line with an 'M' code, 2 for
    the rest. *)
Definition status_tier (line : str) : nat :=
  if decide (flagged "U" line) then 0
  else if decide (flagged "M" line) then 1
  else 2.

(** The elements of tier 0 in reverse order, then those of tier 1 in reverse
    order, then the others in their order. *)
Definition tiered {A} (tier : A -> nat) (l : list A) : list A :=
  reverse (filter (fun x => tier x = 0) l)
  ++ reverse (filter (fun x => tier x = 1) l)
  ++ filter (fun x => 2 <= tier x) l.

(** ** The rest of the class *)

(** [self.colors], the same dictionary for every column. *)
Definition colors : gmap str str :=
  list_to_map
    [ (lit "Modified", lit "guifg=#fabd2f ctermfg=214");
      (lit "Staged", lit "guifg=#b8bb26 ctermfg=142");
      (lit "Renamed", lit "guifg=#fabd2f ctermfg=214");
      (lit "Unmerged", lit "guifg=#fb4934 ctermfg=167");
      (lit "Untracked", lit "guifg=NONE guibg=NONE ctermfg=NONE ctermbg=NONE");
      (lit "Ignored", lit "guifg=NONE guibg=NONE ctermfg=NONE ctermbg=NONE");
      (lit "Unknown", lit "guifg=NONE guibg=NONE ctermfg=NONE ctermbg=NONE") ].

(** [Column.__init__], given the values of the three settings
    [defx_git#indicators], [defx_git#column_length] and
    [defx_git#show_ignored].  The attributes that the base class sets and
    the constant attributes [name] and [colors] are not fields of
    [Column]. *)
Definition __init__ (defx_git_indicators : gmap str str)
    (defx_git_column_length : nat) (defx_git_show_ignored : bool) : Column :=
  {| cache := []; git_root := None;
     indicators := defx_git_indicators;
     column_length := defx_git_column_length;
     show_ignored := defx_git_show_ignored |}.

(** The two commands of [Column.highlight] for one indicator. *)
Definition syntax_match (syntax_name name icon : str) : str :=
  lit "syntax match " ++ syntax_name ++ lit "_" ++ name ++ lit " /[" ++ icon
  ++ lit "]/ contained containedin=" ++ syntax_name.
Definition highlight_default (syntax_name name color : str) : str :=
  lit "highlight default " ++ syntax_name ++ lit "_" ++ name ++ lit " "
  ++ color.

(** [Column.highlight].  [syntax_name] is the attribute of that name, which
    the base class holds.  [items] is [self.indicators.items()]: the entries
    of the dictionary in its order, which the map [indicators] does not
    record. *)
Fixpoint highlight (w : World) (syntax_name : str) (items : list (str * str))
  : M unit :=
  match items with
  | [] => mret tt
  | (name, icon) :: items' =>
    command w (syntax_match syntax_name name icon);;
    color ← lift (dict_getitem colors name);
    command w (highlight_default syntax_name name color);;
    highlight w syntax_name items'
  end.

(** ** What the statements observe *)

(** What [Column.find_git_root] returns, as a function of the world. *)
Definition git_toplevel (w : World) (path : str) : result (option Str) :=
  match subprocess_run w rev_parse_cmd (Some path) with
  | Raise e => if bool_decide (e = CalledProcessError) then Ok None else Raise e
  | Ok stdout =>
    decoded ← decode_utf8 stdout;
    Ok (if bool_decide (decoded = []) then None
        else Some {| ident := fresh_ident w;
                     value := strip decoded newline |})
  end.

(** Whether the path of the candidate starts with the current root. *)
Definition under_root (self : Column) (candidate : Candidate) : bool :=
  match git_root self with
  | Some root => startswith (action__path candidate) (value root)
  | None => false
  end.

(** The number of status queries among external calls: each call of
    [Column.cache_status] makes exactly one. *)
Definition is_status_query (e : event) : bool :=
  match e with
  | SubprocessRun cmd _ => bool_decide (take 2 cmd = [lit "git"; lit "status"])
  | VimCommand _ => false
  end.
Definition refreshes (calls : list event) : nat :=
  length (List.filter is_status_query calls).

(** The calls of [Column.get] that defx makes one after the other, each in
    the world of its moment: the outcomes, the column after the last call
    and all the external calls. *)
Fixpoint gets (steps : list (World * Candidate)) (self : Column)
  : list (result str) * Column * list event :=
  match steps with
  | [] => ([], self, [])
  | (w, candidate) :: steps' =>
    let '(r, self', calls) := get w candidate self in
    let '(rs, self'', calls') := gets steps' self' in
    (r :: rs, self'', calls ++ calls')
  end.

(** ** Example data *)

(** A setting of [g:defx_git#indicators] with one glyph per category. *)
Definition example_indicators : gmap str str :=
  list_to_map
    [ (lit "Untracked", [0x272D%N]); (lit "Modified", [0x2739%N]);
      (lit "Staged", [0x271A%N]); (lit "Renamed", [0x279C%N]);
      (lit "Unmerged", [0x2550%N]); (lit "Ignored", [0x2612%N]);
      (lit "Unknown", lit "?") ].

(** A column as [__init__] leaves it. *)
Definition new_column : Column :=
  {| cache := []; git_root := None; indicators := example_indicators;
     column_length := 2; show_ignored := false |}.

(** A column that has cached the status of the repository [/src]. *)
Definition example_column : Column :=
  {| cache := lit <$> ["UU lib/merge.c"; " M lib/src/x.c";
                       "?? dirty.txt"]%string;
     git_root := Some {| ident := 1; value := lit "/src" |};
     indicators := example_indicators;
     column_length := 2; show_ignored := false |}.

(** A world without a git executable. *)
Definition world_without_git : World :=
  {| subprocess_run := fun _ _ => Raise FileNotFoundError;
     vim_command := fun _ => Ok tt;
     fresh_ident := 2 |}.

(** A world in which every git command prints [stdout]. *)
Definition world_printing (stdout : list byte) : World :=
  {| subprocess_run := fun _ _ => Ok stdout;
     vim_command := fun _ => Ok tt;
     fresh_ident := 2 |}.

(** A world in which [git rev-parse] prints nothing (the path is not in a
    repository) and [git status] prints [stdout]. *)
Definition world_outside_repository (stdout : list byte) : World :=
  {| subprocess_run := fun cmd _ =>
       if bool_decide (cmd = rev_parse_cmd) then Ok [] else Ok stdout;
     vim_command := fun _ => Ok tt;
     fresh_ident := 2 |}.

(** * Properties *)

(** ** Classification *)

Lemma one_char_eq (c : char) (a : ascii) :
  bool_decide ([c] = lit (String a EmptyString)) = is_char c a.
Proof.
  unfold is_char, lit. cbn [list_ascii_of_string fmap list_fmap].
  destruct (N.eqb_spec c (chr a)) as [->|Hne].
  - by apply bool_decide_eq_true_2.
  - apply bool_decide_eq_false_2. intros [=]. done.
Qed.

#[local] Instance category_name_inj : Inj (=) (=) category_name.
Proof. intros [] []; vm_compute; congruence. Qed.

Lemma bool_decide_elem_of_3 (x a b c : str) :
  bool_decide (x ∈ [a; b; c])
  = bool_decide (x = a) || bool_decide (x = b) || bool_decide (x = c).
Proof.
  apply eq_true_iff_eq.
  rewrite !orb_true_iff, !bool_decide_eq_true, !elem_of_cons, elem_of_nil.
  tauto.
Qed.

Lemma get_indicator_name_first_rule (indexCode worktreeCode : char) :
  get_indicator_name [indexCode] [worktreeCode]
  = category_name (classify indexCode worktreeCode).
Proof.
  unfold get_indicator_name.
  rewrite bool_decide_elem_of_3, !one_char_eq.
  unfold classify, precedence_rules, first_rule.
  repeat (destruct (is_char _ _); cbn [andb orb category_name]; try done).
Qed.

(** C1. For every pair of one-character status codes the classifier of the
    code returns the name of exactly one of the seven categories, the one
    that the seven precedence rules select when they are tried in order and
    the first match wins; the names of the seven categories are pairwise
    different; and the pair ('A','A') is Staged, because the Staged rule
    comes before the Unmerged rule. *)
Theorem get_indicator_name_classify :
  (forall indexCode worktreeCode : char,
      get_indicator_name [indexCode] [worktreeCode]
      = category_name (classify indexCode worktreeCode)
      /\ classify indexCode worktreeCode ∈ categories)
  /\ NoDup (category_name <$> categories)
  /\ get_indicator_name (lit "A") (lit "A") = lit "Staged".
Proof.
  split; [|split].
  - intros i w. split; [apply get_indicator_name_first_rule|].
    destruct (classify i w); unfold categories; set_solver.
  - apply (NoDup_fmap_2 _), NoDup_ListNoDup.
    repeat constructor; cbn; intuition discriminate.
  - by vm_compute.
Qed.

(** ** Sorting *)

Section bisect.
Context {A : Type} (islt : A -> A -> result bool).

(** The binary search finds the border between the elements that the pivot
    is not less than and those that it is less than. *)
Lemma bisect_partition fuel pivot (L R : list A) l r :
  (forall x, x ∈ L -> islt pivot x = Ok false) ->
  (forall x, x ∈ R -> islt pivot x = Ok true) ->
  l <= length L -> length L <= r -> r <= length L + length R ->
  r - l <= fuel ->
  bisect islt fuel pivot (L ++ R) l r = Ok (length L).
Proof.
  intros HL HR. revert l r.
  induction fuel as [|fuel IH]; intros l r Hl Hr Hlen Hfuel; cbn [bisect].
  { f_equal. lia. }
  case_bool_decide as Hlr; [|f_equal; lia].
  assert ((r - l) / 2 < r - l) as Hhalf by (apply Nat.div_lt; lia).
  destruct (decide (l + (r - l) / 2 < length L)) as [Hp|Hp].
  - destruct (lookup_lt_is_Some_2 L _ Hp) as [x Hx].
    rewrite (lookup_app_l_Some _ _ _ _ Hx).
    rewrite (HL x) by (by eapply list_elem_of_lookup_2).
    cbn [mbind result_bind].
    apply IH; lia.
  - destruct (lookup_lt_is_Some_2 R (l + (r - l) / 2 - length L))
      as [x Hx]; [lia|].
    rewrite lookup_app_r, Hx by lia.
    rewrite (HR x) by (by eapply list_elem_of_lookup_2).
    cbn [mbind result_bind].
    apply IH; lia.
Qed.

Lemma binarysort_Permutation (todo done out : list A) :
  binarysort islt done todo = Ok out -> out ≡ₚ done ++ todo.
Proof.
  revert done. induction todo as [|x todo IH]; intros done; cbn.
  { intros [= <-]. by rewrite app_nil_r. }
  destruct (bisect _ _ _ _ _ _) as [k|]; cbn; [|done].
  intros ->%IH.
  rewrite <- (take_drop k done) at 3.
  rewrite <- !app_assoc. cbn.
  by rewrite (Permutation_middle (drop k done) todo x).
Qed.

Lemma list_sort_Permutation (l out : list A) :
  list_sort islt l = Ok out -> out ≡ₚ l.
Proof.
  unfold list_sort. case_bool_decide; [by intros [= <-]|].
  destruct (count_run islt l) as [[n d]|]; cbn; [|done].
  intros ->%binarysort_Permutation.
  transitivity (take n l ++ drop n l); [|by rewrite take_drop].
  destruct d; [by rewrite reverse_Permutation|done].
Qed.
End bisect.

Lemma filter_none {A} (P : A -> Prop) `{!forall x, Decision (P x)}
    (l : list A) :
  Forall (fun x => ~ P x) l -> filter P l = [].
Proof.
  induction 1 as [|x l Hx _ IH]; [done|].
  by rewrite filter_cons_False.
Qed.

(** A sort whose [<] is "of a tier not above, and not of the last tier" puts
    the list in the order [tiered]. *)
Section tiered_sort.
Context {A : Type} (islt : A -> A -> result bool).
Context (tier : A -> nat) (wf : A -> Prop).
Hypothesis islt_tier : forall a b, wf a -> wf b ->
  islt a b = Ok (bool_decide (tier a <= tier b /\ tier a < 2)).

Local Abbreviation tier0 := (filter (fun x => tier x = 0)).
Local Abbreviation tier1 := (filter (fun x => tier x = 1)).
Local Abbreviation tier2 := (filter (fun x => 2 <= tier x)).

Lemma elem_of_tiered x l : x ∈ tiered tier l -> x ∈ l.
Proof.
  unfold tiered.
  rewrite !elem_of_app, !elem_of_reverse, !list_elem_of_filter. tauto.
Qed.

Lemma tiered_snoc l x :
  tiered tier (l ++ [x])
  = match tier x with
    | 0 => x :: tiered tier l
    | 1 => reverse (tier0 l) ++ x :: reverse (tier1 l) ++ tier2 l
    | _ => tiered tier l ++ [x]
    end.
Proof.
  unfold tiered. rewrite !filter_app, !filter_cons, !filter_nil.
  destruct (tier x) as [|[|t]]; repeat case_decide; try lia;
    rewrite ?app_nil_r, ?reverse_snoc, <- ?app_assoc; done.
Qed.

(** Below an element of tier [tier a], with none of the last tier. *)
Lemma tiered_cons_below a l :
  Forall (fun x => tier x <= tier a /\ tier x < 2) l ->
  tiered tier (a :: l) = tiered tier l ++ [a].
Proof.
  intros Hl. unfold tiered.
  assert (tier2 l = []) as E2
    by (apply filter_none; eapply Forall_impl; [done|]; cbn; lia).
  rewrite !filter_cons, !E2, !app_nil_r.
  destruct (tier a) as [|[|t]] eqn:Ha; repeat case_decide; try lia.
  - assert (tier1 l = []) as ->
      by (apply filter_none; eapply Forall_impl; [done|]; cbn; lia).
    by rewrite reverse_cons, !app_nil_r.
  - by rewrite reverse_cons, !app_nil_r, app_assoc.
  - by rewrite app_assoc.
Qed.

(** Above an element of tier [tier a], or in the last tier. *)
Lemma tiered_cons_above a l :
  Forall (fun x => tier a < tier x \/ 2 <= tier x) l ->
  tiered tier (a :: l) = a :: tiered tier l.
Proof.
  intros Hl. unfold tiered.
  assert (tier0 l = []) as E0
    by (apply filter_none; eapply Forall_impl; [done|]; cbn; lia).
  rewrite !filter_cons, !E0.
  destruct (tier a) as [|[|t]] eqn:Ha; repeat case_decide; try lia.
  - done.
  - assert (tier1 l = []) as ->
      by (apply filter_none; eapply Forall_impl; [done|]; cbn; lia).
    done.
  - assert (tier1 l = []) as ->
      by (apply filter_none; eapply Forall_impl; [done|]; cbn; lia).
    done.
Qed.

Lemma tiered_nil : tiered tier [] = [].
Proof. done. Qed.

Lemma tiered_singleton a : tiered tier [a] = [a].
Proof. by rewrite tiered_cons_above, tiered_nil. Qed.

Lemma islt_true a b :
  wf a -> wf b -> tier a <= tier b /\ tier a < 2 -> islt a b = Ok true.
Proof. intros. by rewrite islt_tier, bool_decide_eq_true_2. Qed.

Lemma islt_false a b :
  wf a -> wf b -> ~ (tier a <= tier b /\ tier a < 2) -> islt a b = Ok false.
Proof. intros. by rewrite islt_tier, bool_decide_eq_false_2. Qed.

(** A descending run, reversed, is in the order [tiered]. *)
Lemma run_descending_tiered prev l :
  wf prev -> Forall wf l ->
  exists n, run_descending islt prev l = Ok n
    /\ Forall (fun x => tier x <= tier prev /\ tier x < 2) (take n l)
    /\ reverse (prev :: take n l) = tiered tier (prev :: take n l).
Proof.
  intros Hprev Hl. revert prev Hprev.
  induction Hl as [|x l Hx Hl IH]; intros prev Hprev.
  { exists 0. by rewrite tiered_singleton. }
  cbn [run_descending]. rewrite islt_tier by done.
  case_bool_decide as Hxp; cbn [mbind result_bind].
  - destruct (IH x Hx) as (n & -> & Hn & Hrev).
    exists (S n). split; [done|]. cbn [take]. split.
    + constructor; [done|]. eapply Forall_impl; [done|]. cbn. lia.
    + rewrite reverse_cons, Hrev. symmetry. apply tiered_cons_below.
      constructor; [done|]. eapply Forall_impl; [done|]. cbn. lia.
  - exists 0. by rewrite tiered_singleton.
Qed.

(** An ascending run is in the order [tiered]. *)
Lemma run_ascending_tiered prev l :
  wf prev -> Forall wf l ->
  exists n, run_ascending islt prev l = Ok n
    /\ Forall (fun x => tier prev < tier x \/ 2 <= tier x) (take n l)
    /\ tiered tier (prev :: take n l) = prev :: take n l.
Proof.
  intros Hprev Hl. revert prev Hprev.
  induction Hl as [|x l Hx Hl IH]; intros prev Hprev.
  { exists 0. by rewrite tiered_singleton. }
  cbn [run_ascending]. rewrite islt_tier by done.
  case_bool_decide as Hxp; cbn [mbind result_bind].
  - exists 0. by rewrite tiered_singleton.
  - destruct (IH x Hx) as (n & -> & Hn & Hrun).
    exists (S n). split; [done|]. cbn [take]. split.
    + constructor; [lia|]. eapply Forall_impl; [done|]. cbn. lia.
    + rewrite <- Hrun at 2. apply tiered_cons_above.
      constructor; [lia|]. eapply Forall_impl; [done|]. cbn. lia.
Qed.

Lemma count_run_tiered l :
  Forall wf l -> 2 <= length l ->
  exists n descending, count_run islt l = Ok (n, descending)
    /\ (if descending : bool then reverse (take n l) else take n l)
       = tiered tier (take n l).
Proof.
  intros Hl Hlen.
  destruct Hl as [|x ? Hx Hl]; [cbn in Hlen; lia|].
  destruct Hl as [|y l Hy Hl]; [cbn in Hlen; lia|].
  cbn [count_run]. rewrite islt_tier by done.
  case_bool_decide as Hyx; cbn [mbind result_bind].
  - destruct (run_descending_tiered y l Hy Hl) as (n & -> & Hn & Hrev).
    exists (2 + n), true. split; [done|]. cbn [take Nat.add].
    rewrite reverse_cons, Hrev. symmetry. apply tiered_cons_below.
    constructor; [done|]. eapply Forall_impl; [done|]. cbn. lia.
  - destruct (run_ascending_tiered y l Hy Hl) as (n & -> & Hn & Hrun).
    exists (2 + n), false. split; [done|]. cbn [take Nat.add].
    rewrite <- Hrun at 1. symmetry. apply tiered_cons_above.
    constructor; [lia|]. eapply Forall_impl; [done|]. cbn. lia.
Qed.

(** One step of [binarysort] keeps the order [tiered]. *)
Lemma bisect_tiered pre x :
  Forall wf pre -> wf x ->
  exists k,
    bisect islt (length (tiered tier pre)) x (tiered tier pre) 0
           (length (tiered tier pre)) = Ok k
    /\ take k (tiered tier pre) ++ x :: drop k (tiered tier pre)
       = tiered tier (pre ++ [x]).
Proof.
  intros Hpre Hx.
  assert (forall y, y ∈ pre -> wf y) as Hwf by (by apply Forall_forall).
  rewrite tiered_snoc. destruct (tier x) as [|[|t]] eqn:Htier.
  - exists 0. split; [|done].
    apply (bisect_partition islt _ x [] (tiered tier pre)); cbn; try lia.
    + intros y Hy. by apply elem_of_nil in Hy.
    + intros y Hy%elem_of_tiered. apply islt_true; auto. lia.
  - exists (length (reverse (tier0 pre))). unfold tiered at 1 2 3 4 5.
    rewrite take_app_length, drop_app_length. split; [|done].
    apply bisect_partition; rewrite ?length_app; try lia.
    + intros y Hy. apply elem_of_reverse, list_elem_of_filter in Hy as [? ?].
      apply islt_false; auto. lia.
    + intros y Hy. apply islt_true; auto.
      * apply Hwf. apply elem_of_app in Hy as [Hy|Hy].
        -- by apply elem_of_reverse, list_elem_of_filter in Hy as [? ?].
        -- by apply list_elem_of_filter in Hy as [? ?].
      * apply elem_of_app in Hy as [Hy|Hy].
        -- apply elem_of_reverse, list_elem_of_filter in Hy as [? ?]. lia.
        -- apply list_elem_of_filter in Hy as [? ?]. lia.
  - exists (length (tiered tier pre)).
    rewrite firstn_all, drop_all. split; [|done].
    rewrite <- (app_nil_r (tiered tier pre)) at 2.
    apply bisect_partition; cbn; try lia.
    + intros y Hy%elem_of_tiered. apply islt_false; auto. lia.
    + intros y Hy. by apply elem_of_nil in Hy.
Qed.

Lemma binarysort_tiered todo pre :
  Forall wf pre -> Forall wf todo ->
  binarysort islt (tiered tier pre) todo = Ok (tiered tier (pre ++ todo)).
Proof.
  intros Hpre Htodo. revert pre Hpre.
  induction Htodo as [|x todo Hx Htodo IH]; intros pre Hpre.
  { by rewrite app_nil_r. }
  cbn [binarysort].
  destruct (bisect_tiered pre x Hpre Hx) as (k & -> & Hins).
  cbn [mbind result_bind]. rewrite Hins.
  rewrite IH by (apply Forall_app; auto).
  by rewrite <- app_assoc.
Qed.

Lemma list_sort_tiered l :
  Forall wf l -> list_sort islt l = Ok (tiered tier l).
Proof.
  intros Hl. unfold list_sort. case_bool_decide as Hlen.
  { destruct l as [|x [|y l]]; [done| |cbn in Hlen; lia].
    by rewrite tiered_singleton. }
  destruct (count_run_tiered l Hl) as (n & d & -> & Hrun); [lia|].
  cbn [mbind result_bind]. rewrite Hrun.
  rewrite binarysort_tiered, take_drop;
    auto using Forall_take, Forall_drop.
Qed.
End tiered_sort.

(** ** The status line ordering *)

Lemma flagged_cons2 c x y (l : str) :
  flagged c (x :: y :: l) <-> is_char x c || is_char y c.
Proof.
  unfold flagged, is_char. cbn [lookup list_lookup].
  destruct (N.eqb_spec x (chr c)), (N.eqb_spec y (chr c)); cbn;
    intuition congruence.
Qed.

Lemma status_tier_cons2 x y (l : str) :
  status_tier (x :: y :: l)
  = if is_char x "U" || is_char y "U" then 0
    else if is_char x "M" || is_char y "M" then 1 else 2.
Proof.
  unfold status_tier.
  destruct (decide (flagged "U" _)) as [HU|HU];
    rewrite flagged_cons2 in HU; destruct (_ || _); try done.
  destruct (decide (flagged "M" _)) as [HM|HM];
    rewrite flagged_cons2 in HM; destruct (_ || _); done.
Qed.

(** On lines that have both status codes, the ordering only looks at the
    tiers. *)
Lemma cmp_to_key_sort_tier (a b : str) :
  2 <= length a -> 2 <= length b ->
  cmp_to_key sort a b
  = Ok (bool_decide (status_tier a <= status_tier b /\ status_tier a < 2)).
Proof.
  intros Ha Hb.
  destruct a as [|a0 [|a1 a]]; cbn in Ha; try lia.
  destruct b as [|b0 [|b1 b]]; cbn in Hb; try lia.
  rewrite !status_tier_cons2.
  unfold cmp_to_key, sort, or_, and_, not_, item_is, getitem.
  cbn -[is_char].
  destruct (is_char a0 "U"), (is_char a1 "U"), (is_char a0 "M"),
    (is_char a1 "M"), (is_char b0 "U"), (is_char b1 "U"),
    (is_char b0 "M"), (is_char b1 "M"); cbn;
    f_equal; symmetry;
    (apply bool_decide_eq_true_2; lia) || (apply bool_decide_eq_false_2; lia).
Qed.

Lemma sort_raises (a b : str) e : sort a b = Raise e -> e = IndexError.
Proof.
  unfold sort, or_, and_, not_, item_is, getitem.
  repeat (destruct (_ !! _); cbn [mbind result_bind fmap result_fmap negb]);
    repeat (destruct (is_char _ _);
            cbn [mbind result_bind fmap result_fmap negb]);
    congruence.
Qed.

Lemma status_tier_0 line : status_tier line = 0 <-> flagged "U" line.
Proof. unfold status_tier. repeat case_decide; intuition lia. Qed.

Lemma status_tier_1 line :
  status_tier line = 1 <-> flagged "M" line /\ ~ flagged "U" line.
Proof. unfold status_tier. repeat case_decide; intuition lia. Qed.

Lemma status_tier_2 line :
  2 <= status_tier line <-> ~ flagged "U" line /\ ~ flagged "M" line.
Proof. unfold status_tier. repeat case_decide; split; try lia; tauto. Qed.

Lemma sorted_tiered (lines : list str) :
  Forall (fun line => 2 <= length line) lines ->
  sorted lines (cmp_to_key sort) = Ok (tiered status_tier lines).
Proof.
  intros Hlines. unfold sorted.
  apply (list_sort_tiered _ status_tier (fun line : str => 2 <= length line));
    [|done].
  intros a b. apply cmp_to_key_sort_tier.
Qed.




(** ** The methods, unfolded *)

Lemma cache_status_unfold w path self :
  cache_status w path self
  = let cleared := with_cache [] self in
    let calls := [SubprocessRun (status_cmd self) path] in
    match subprocess_run w (status_cmd self) path with
    | Raise e =>
      (if bool_decide (e = CalledProcessError) then Ok tt else Raise e,
       cleared, calls)
    | Ok stdout =>
      match decode_utf8 stdout with
      | Raise e => (Raise e, cleared, calls)
      | Ok decoded =>
        if bool_decide (decoded = []) then (Ok tt, cleared, calls)
        else match sorted (status_lines decoded) (cmp_to_key sort) with
             | Raise e => (Raise e, cleared, calls)
             | Ok lines => (Ok tt, with_cache lines self, calls)
             end
      end
    end.
Proof.
  unfold cache_status, mbind, M_bind, set_cache, this, try_except, run, lift,
    mret, M_ret.
  cbn -[status_cmd decode_utf8 sorted status_lines bool_decide].
  change (status_cmd (with_cache [] self)) with (status_cmd self).
  destruct (subprocess_run w (status_cmd self) path) as [stdout|e].
  - destruct (decode_utf8 stdout) as [decoded|e]; [|done].
    repeat case_bool_decide; try done.
    destruct (sorted _ _); done.
  - repeat case_bool_decide; done.
Qed.

Lemma find_git_root_unfold w path self :
  find_git_root w path self
  = (git_toplevel w path, self, [SubprocessRun rev_parse_cmd (Some path)]).
Proof.
  unfold find_git_root, git_toplevel, mbind, M_bind, try_except, run, lift,
    mret, M_ret.
  cbn -[rev_parse_cmd decode_utf8 strip bool_decide].
  destruct (subprocess_run w rev_parse_cmd (Some path)) as [stdout|e].
  - destruct (decode_utf8 stdout) as [decoded|e]; [|done].
    cbn -[bool_decide strip]. repeat case_bool_decide; done.
  - repeat case_bool_decide; done.
Qed.

(** What the lookup part of [Column.get] returns. *)
Lemma get_entry_unfold candidate self :
  get_entry candidate self
  = (if bool_decide (cache self = []) then Ok (format self [])
     else
       let entry := find_in_cache self candidate in
       if bool_decide (entry = []) then Ok (format self [])
       else
         us ← getitem entry 0;
         them ← getitem entry 1;
         icon ← dict_getitem (indicators self)
                             (get_indicator_name [us] [them]);
         Ok (format self icon),
     self, []).
Proof.
  unfold get_entry, mbind, M_bind, result_bind, this, lift, mret, M_ret.
  cbn -[find_in_cache get_indicator_name format getitem bool_decide].
  repeat case_bool_decide; try done.
  destruct (getitem _ 0) as [us|]; [|done].
  destruct (getitem _ 1) as [them|]; [|done].
  destruct (dict_getitem _ _); done.
Qed.

Lemma get_non_root_unfold w candidate self :
  is_root candidate ≠ Some true ->
  get w candidate self = get_entry candidate self.
Proof.
  intros Hroot. unfold get, mbind at 1, M_bind, this.
  rewrite bool_decide_eq_false_2 by done.
  destruct (get_entry candidate self) as [[r self'] calls]. done.
Qed.

Lemma get_root_unfold w candidate self :
  is_root candidate = Some true ->
  get w candidate self
  = let path := action__path candidate in
    let call1 := SubprocessRun rev_parse_cmd (Some path) in
    let call2 := VimCommand (echomsg path) in
    if under_root self candidate then (Ok (format self []), self, [])
    else
      match git_toplevel w path with
      | Raise e => (Raise e, self, [call1])
      | Ok root =>
        match vim_command w (echomsg path) with
        | Raise e => (Raise e, self, [call1; call2])
        | Ok _ =>
          if is_not root (git_root self) then
            let '(r, self', calls) :=
              cache_status w (value <$> root) (with_git_root root self) in
            (r ;; Ok (format self []), self', call1 :: call2 :: calls)
          else
            let '(r, self', calls) := get_entry candidate self in
            (r, self', call1 :: call2 :: calls)
        end
      end.
Proof.
  intros Hroot. unfold get, mbind at 1, M_bind, this.
  rewrite bool_decide_eq_true_2 by done.
  fold (under_root self candidate).
  destruct (under_root self candidate); [done|].
  unfold mbind at 1, M_bind. rewrite find_git_root_unfold.
  destruct (git_toplevel w (action__path candidate)) as [root|e]; [|done].
  unfold mbind at 1, M_bind, command.
  destruct (vim_command w _) as [[]|e]; [|done].
  unfold mbind at 1, M_bind, this.
  destruct (is_not root (git_root self)).
  - unfold mbind at 1, M_bind, set_git_root.
    unfold mbind at 1, M_bind.
    destruct (cache_status w (value <$> root) (with_git_root root self))
      as [[[[]|e] self'] calls]; cbn; by rewrite ?app_nil_r.
  - destruct (get_entry candidate self) as [[r self'] calls]. done.
Qed.

(** ** Refreshing the cache *)

(** C10. Whatever the world answers, a call of [cache_status] makes one
    status query and afterwards the cache is empty or is exactly the sorted
    non-empty lines of the decoded output of that query.  It is empty
    whenever the call raises, whenever the query itself raises, and whenever
    the output is empty.  Nothing of the previous cache is kept: the outcome
    is the same whatever the cache was before the call, and the other
    attributes are not touched. *)
Theorem cache_status_replaces_cache w path self :
  exists r self',
    let calls := [SubprocessRun (status_cmd self) path] in
    cache_status w path self = (r, self', calls)
    /\ self' = with_cache (cache self') self
    /\ (cache self' = []
        \/ exists stdout decoded,
             subprocess_run w (status_cmd self) path = Ok stdout
             /\ decode_utf8 stdout = Ok decoded
             /\ decoded ≠ []
             /\ sorted (status_lines decoded) (cmp_to_key sort)
                = Ok (cache self'))
    /\ (forall e, r = Raise e -> cache self' = [])
    /\ (forall e, subprocess_run w (status_cmd self) path = Raise e ->
        cache self' = [])
    /\ (forall stdout, subprocess_run w (status_cmd self) path = Ok stdout ->
        decode_utf8 stdout = Ok [] -> r = Ok tt /\ cache self' = [])
    /\ (forall old, cache_status w path (with_cache old self)
                    = (r, self', calls)).
Proof.
  assert (forall old, cache_status w path (with_cache old self)
                      = cache_status w path self) as Hold.
  { intros old. by rewrite !cache_status_unfold. }
  destruct (cache_status w path self) as [[r self'] calls] eqn:Hcs.
  exists r, self'. cbv zeta.
  assert (forall old, cache_status w path (with_cache old self)
                      = (r, self', calls)) as Hold'
    by (by intros; rewrite Hold).
  clear Hold. rewrite cache_status_unfold in Hcs. cbv zeta in Hcs.
  destruct (subprocess_run w (status_cmd self) path) as [stdout|e] eqn:Hrun.
  - destruct (decode_utf8 stdout) as [decoded|e] eqn:Hdecode.
    + case_bool_decide as Hdecoded.
      * injection Hcs as <- <- <-. cbn.
        repeat split; intros; simplify_eq; auto; congruence.
      * destruct (sorted _ _) as [lines|e] eqn:Hsorted;
          injection Hcs as <- <- <-; cbn.
        -- split; [done|]. split; [done|]. split; [right; eauto 10|].
           repeat split; intros; simplify_eq; auto; congruence.
        -- repeat split; intros; simplify_eq; auto; congruence.
    + injection Hcs as <- <- <-. cbn.
      repeat split; intros; simplify_eq; auto; congruence.
  - injection Hcs as <- <- <-. cbn.
    repeat split; intros; simplify_eq; auto; congruence.
Qed.

(** ** Looking a candidate up *)

(** C8. A candidate that is not flagged as root is answered from the cached
    state alone: the call makes no external call and leaves the column as it
    was, so that a second call for the same candidate, in whatever world,
    has the same outcome. *)
Theorem get_non_root_twice w1 w2 candidate self :
  is_root candidate ≠ Some true ->
  let '(r1, self1, calls1) := get w1 candidate self in
  let '(r2, self2, calls2) := get w2 candidate self1 in
  r1 = r2 /\ self1 = self /\ self2 = self /\ calls1 = [] /\ calls2 = [].
Proof.
  intros Hroot.
  rewrite (get_non_root_unfold w1), get_entry_unfold by done.
  rewrite (get_non_root_unfold w2), get_entry_unfold by done.
  done.
Qed.

Lemma get_non_root_twice_witness :
  let candidate := {| is_root := None; action__path := lit "/src/dirty.txt";
                      is_directory := false |} in
  is_root candidate ≠ Some true
  /\ let '(r1, self1, calls1) :=
       get world_without_git candidate example_column in
     let '(r2, self2, calls2) :=
       get (world_printing (printed ["?? other.txt"%string])) candidate self1 in
     r1 = r2 /\ self1 = example_column /\ self2 = example_column
     /\ calls1 = [] /\ calls2 = [].
Proof.
  cbv zeta. split; [done|].
  apply (get_non_root_twice world_without_git
           (world_printing (printed ["?? other.txt"%string]))
           {| is_root := None; action__path := lit "/src/dirty.txt";
              is_directory := false |} example_column).
  done.
Defined.

Lemma first_match_elem path items :
  first_match path items = [] \/ first_match path items ∈ items.
Proof.
  induction items as [|item items IH]; [by left|]. cbn.
  destruct (startswith _ _); [right; left|].
  destruct IH as [IH|IH]; [by left|right; by right].
Qed.

Lemma length_format self (column : str) :
  length column <= column_length self ->
  length (format self column) = column_length self.
Proof.
  intros Hlen. unfold format, format_ljust.
  rewrite length_app, length_replicate. lia.
Qed.

(** The label that the lookup part of [Column.get] returns. *)
Lemma get_entry_label candidate self label self' calls :
  get_entry candidate self = (Ok label, self', calls) ->
  label = format self []
  \/ exists us them icon,
       getitem (find_in_cache self candidate) 0 = Ok us
       /\ getitem (find_in_cache self candidate) 1 = Ok them
       /\ indicators self !! get_indicator_name [us] [them] = Some icon
       /\ label = format self icon.
Proof.
  rewrite get_entry_unfold. intros [= Hlabel <- <-]. revert Hlabel.
  case_bool_decide; [intros [= <-]; by left|]. cbv zeta.
  case_bool_decide; [intros [= <-]; by left|].
  destruct (getitem _ 0) as [us|]; [|done].
  destruct (getitem _ 1) as [them|]; [|done].
  cbn [mbind result_bind]. unfold dict_getitem.
  destruct (indicators self !! _) as [icon|] eqn:Hicon; [|done].
  intros [= <-]. right. eauto 10.
Qed.

Lemma get_label candidate w self label self' calls :
  get w candidate self = (Ok label, self', calls) ->
  label = format self []
  \/ exists us them icon,
       getitem (find_in_cache self candidate) 0 = Ok us
       /\ getitem (find_in_cache self candidate) 1 = Ok them
       /\ indicators self !! get_indicator_name [us] [them] = Some icon
       /\ label = format self icon.
Proof.
  destruct (decide (is_root candidate = Some true)) as [Hroot|Hroot].
  - rewrite get_root_unfold by done. cbv zeta.
    destruct (under_root self candidate); [intros [= <- <- <-]; by left|].
    destruct (git_toplevel _ _) as [root|]; [|done].
    destruct (vim_command _ _); [|done].
    destruct (is_not _ _).
    + destruct (cache_status _ _ _) as [[[[]|] ?] ?]; [|done].
      intros [= <- <- <-]. by left.
    + destruct (get_entry candidate self) as [[r self''] calls'] eqn:Hentry.
      intros [= -> <- <-]. by eapply get_entry_label.
  - rewrite get_non_root_unfold by done. apply get_entry_label.
Qed.

(** C9. With every configured glyph no wider than the column, a label that
    [Column.get] returns has exactly the width of the column: it is either
    all spaces, or the glyph configured for the category of the two status
    codes of the matching line, followed by spaces.  And a label is returned
    (no exception) for every candidate that is not flagged as root when the
    cached lines have both status codes and each of the seven categories has
    a glyph. *)
Theorem get_label_width w candidate self :
  (forall name icon, indicators self !! name = Some icon ->
                     length icon <= column_length self) ->
  (forall label self' calls,
      get w candidate self = (Ok label, self', calls) ->
      length label = column_length self
      /\ (label = replicate (column_length self) (chr " ")
          \/ exists us them icon,
               getitem (find_in_cache self candidate) 0 = Ok us
               /\ getitem (find_in_cache self candidate) 1 = Ok them
               /\ indicators self !! get_indicator_name [us] [them]
                  = Some icon
               /\ label = icon ++ replicate (column_length self - length icon)
                                            (chr " ")))
  /\ (is_root candidate ≠ Some true ->
      Forall (fun line => 2 <= length line) (cache self) ->
      (forall category,
          is_Some (indicators self !! category_name category)) ->
      exists label, get w candidate self = (Ok label, self, [])).
Proof.
  intros Hwidth. split.
  - intros label self' calls [->|Hicon]%get_label.
    + split; [apply length_format; cbn; lia|].
      left. unfold format, format_ljust. cbn. by rewrite Nat.sub_0_r.
    + destruct Hicon as (us & them & icon & Hus & Hthem & Hicon & ->).
      split; [apply length_format; eauto|].
      right. exists us, them, icon. done.
  - intros Hroot Hcache Hicons.
    rewrite get_non_root_unfold, get_entry_unfold by done. cbv zeta.
    case_bool_decide; [eauto|]. case_bool_decide as Hentry; [eauto|].
    unfold find_in_cache in *.
    destruct (first_match_elem (cache_key self candidate) (cache self))
      as [?|Helem]; [done|].
    rewrite Forall_forall in Hcache. apply Hcache in Helem.
    destruct (first_match _ _) as [|us [|them entry]];
      cbn in Helem; try lia.
    cbn [getitem lookup list_lookup mbind result_bind].
    rewrite get_indicator_name_first_rule. unfold dict_getitem.
    destruct (Hicons (classify us them)) as [icon ->]. cbn. eauto.
Qed.

Lemma example_indicators_width :
  forall name icon, indicators example_column !! name = Some icon ->
                    length icon <= column_length example_column.
Proof.
  apply (bool_decide_unpack
           (map_Forall (fun _ icon => length icon <= 2) example_indicators)).
  vm_compute. exact I.
Qed.

Lemma get_label_width_witness :
  let candidate := {| is_root := None; action__path := lit "/src/dirty.txt";
                      is_directory := false |} in
  let w := world_without_git in
  (forall name icon, indicators example_column !! name = Some icon ->
                     length icon <= column_length example_column)
  /\ get w candidate example_column
     = (Ok [0x272D%N; chr " "], example_column, [])
  /\ (forall label self' calls,
         get w candidate example_column = (Ok label, self', calls) ->
         length label = column_length example_column
         /\ (label = replicate (column_length example_column) (chr " ")
             \/ exists us them icon,
                  getitem (find_in_cache example_column candidate) 0 = Ok us
                  /\ getitem (find_in_cache example_column candidate) 1
                     = Ok them
                  /\ indicators example_column
                       !! get_indicator_name [us] [them] = Some icon
                  /\ label = icon ++ replicate (column_length example_column
                                                - length icon) (chr " "))).
Proof.
  cbv zeta. split; [exact example_indicators_width|].
  split; [by vm_compute|].
  exact (proj1 (get_label_width world_without_git
                  {| is_root := None; action__path := lit "/src/dirty.txt";
                     is_directory := false |}
                  example_column example_indicators_width)).
Defined.

(** ** The cache lookup *)

Lemma startswith_app (s p : str) :
  startswith s p = true <-> exists rest, s = p ++ rest.
Proof.
  revert s. induction p as [|c p IH]; intros [|d s]; cbn.
  - split; eauto.
  - split; eauto.
  - split; [done|]. by intros [rest ?].
  - rewrite andb_true_iff, N.eqb_eq, IH. split.
    + intros [-> [rest ->]]. by exists rest.
    + intros [rest [= -> ->]]. eauto.
Qed.

Lemma first_match_found path before line after :
  Forall (fun item => startswith (drop 3 item) path = false) before ->
  startswith (drop 3 line) path = true ->
  first_match path (before ++ line :: after) = line.
Proof.
  intros Hbefore Hline.
  induction Hbefore as [|item before Hitem _ IH]; cbn.
  - by rewrite Hline.
  - by rewrite Hitem.
Qed.

Lemma first_match_none path items :
  Forall (fun item => startswith (drop 3 item) path = false) items ->
  first_match path items = [].
Proof.
  induction 1 as [|item items Hitem _ IH]; cbn; [done|]. by rewrite Hitem.
Qed.

(** C4 (amended). For a candidate that is not a directory, the lookup returns
    the first cached line whose path field (the line from offset 3) has the
    relative name of the candidate as a string prefix, whatever follows that
    prefix: the line of the file itself, and just as well the line of a
    longer name such as [dirty.txt] for the name [dir].  Without such a line
    the result is empty. *)
Theorem find_in_cache_file self candidate :
  is_directory candidate = false ->
  let name := replace (action__path candidate)
                      (fstring (git_root self) ++ lit "/") [] in
  (forall before line after rest,
      cache self = before ++ line :: after ->
      (forall item, item ∈ before ->
                    ~ exists rest', drop 3 item = name ++ rest') ->
      drop 3 line = name ++ rest ->
      find_in_cache self candidate = line)
  /\ ((forall item, item ∈ cache self ->
                    ~ exists rest', drop 3 item = name ++ rest') ->
      find_in_cache self candidate = []).
Proof.
  intros Hfile name.
  assert (cache_key self candidate = name) as Hkey.
  { unfold cache_key. rewrite Hfile. apply app_nil_r. }
  assert (forall items,
             (forall item, item ∈ items ->
                           ~ exists rest', drop 3 item = name ++ rest') ->
             Forall (fun item => startswith (drop 3 item) name = false) items)
    as Hnone.
  { intros items Hitems. apply Forall_forall. intros item Hitem.
    apply not_true_is_false. rewrite startswith_app. by apply Hitems. }
  unfold find_in_cache. rewrite Hkey. split.
  - intros before line after rest -> Hbefore Hline.
    apply first_match_found; [by apply Hnone|].
    apply startswith_app. eauto.
  - intros Hitems. apply first_match_none. by apply Hnone.
Qed.

Lemma find_in_cache_file_witness :
  let candidate := {| is_root := None; action__path := lit "/src/dir";
                      is_directory := false |} in
  is_directory candidate = false
  /\ find_in_cache example_column candidate = lit "?? dirty.txt".
Proof.
  cbv zeta. split; [done|].
  apply (proj1 (find_in_cache_file example_column
                  {| is_root := None; action__path := lit "/src/dir";
                     is_directory := false |} eq_refl)
           (lit <$> ["UU lib/merge.c"; " M lib/src/x.c"]%string)
           (lit "?? dirty.txt") [] (lit "ty.txt")).
  - reflexivity.
  - intros item Hitem [rest' Hrest].
    apply list_elem_of_In in Hitem. cbn in Hitem.
    destruct Hitem as [<-|[<-|[]]]; vm_compute in Hrest; discriminate.
  - reflexivity.
Defined.

(** C4 (as stated) fails: the file candidate [dir] under the root [/src]
    matches the cached line of [dirty.txt] and is shown with its glyph. *)
Lemma find_in_cache_file_prefix :
  let candidate := {| is_root := None; action__path := lit "/src/dir";
                      is_directory := false |} in
  cache_key example_column candidate = lit "dir"
  /\ lit "?? dirty.txt" ∈ cache example_column
  /\ drop 3 (lit "?? dirty.txt") = lit "dirty.txt"
  /\ find_in_cache example_column candidate = lit "?? dirty.txt"
  /\ get world_without_git candidate example_column
     = (Ok [0x272D%N; chr " "], example_column, []).
Proof.
  cbv zeta. split; [by vm_compute|]. split; [|by vm_compute].
  apply list_elem_of_In. cbn. auto.
Qed.

(** C3 (the code at the failing input).  The root is [/src] and the
    candidate is the file [/src/lib/src/x.c], whose line [' M lib/src/x.c']
    is cached.  [replace] removes both occurrences of [/src/], the lookup
    searches for [libx.c] and finds nothing, whereas the path with only the
    leading root prefix stripped is the path field of the cached line.  A
    directory candidate without a second occurrence, [/src/lib], is looked
    up as [lib/] and gets the first and most severe line under it. *)
Lemma find_in_cache_replaces_every_occurrence :
  let candidate := {| is_root := None; action__path := lit "/src/lib/src/x.c";
                      is_directory := false |} in
  let directory := {| is_root := None; action__path := lit "/src/lib";
                      is_directory := true |} in
  git_root example_column = Some {| ident := 1; value := lit "/src" |}
  /\ lit " M lib/src/x.c" ∈ cache example_column
  /\ action__path candidate = lit "/src/" ++ drop 3 (lit " M lib/src/x.c")
  /\ cache_key example_column candidate = lit "libx.c"
  /\ find_in_cache example_column candidate = []
  /\ get world_without_git candidate example_column
     = (Ok (lit "  "), example_column, [])
  /\ cache_key example_column directory = lit "lib/"
  /\ find_in_cache example_column directory = lit "UU lib/merge.c".
Proof.
  cbv zeta. split; [done|]. split; [|by vm_compute].
  apply list_elem_of_In. cbn. auto.
Qed.

(** ** Resolving the root *)

Lemma cache_status_outcome w path self :
  exists r lines,
    cache_status w path self
    = (r, with_cache lines self, [SubprocessRun (status_cmd self) path]).
Proof.
  rewrite cache_status_unfold. cbv zeta.
  destruct (subprocess_run _ _ _); [|eauto].
  destruct (decode_utf8 _); [|eauto].
  case_bool_decide; [eauto|].
  destruct (sorted _ _); eauto.
Qed.

Lemma refreshes_root_calls self path cwd message :
  refreshes [SubprocessRun rev_parse_cmd path; VimCommand message;
             SubprocessRun (status_cmd self) cwd] = 1.
Proof. unfold status_cmd. by destruct (show_ignored self). Qed.

Lemma is_not_values (x y : option Str) :
  (forall a b, x = Some a -> y = Some b -> ident a = ident b ->
               value a = value b) ->
  value <$> x ≠ value <$> y -> is_not x y = true.
Proof.
  intros Hident Hvalue. destruct x as [a|], y as [b|]; cbn in *; try done.
  destruct (Nat.eqb_spec (ident a) (ident b)) as [Heq|]; [|done].
  destruct Hvalue. f_equal. by apply Hident.
Qed.




(** The comparison of identities: the root [/src] is cached as the object 1;
    the root candidate [/link/src] does not start with [/src], and the root
    query prints [/src] again, which becomes a new object 2.  The cache is
    refreshed although the root has the same value. *)
Lemma get_root_same_value_refreshes :
  let candidate := {| is_root := Some true; action__path := lit "/link/src";
                      is_directory := true |} in
  let w := {| subprocess_run := fun cmd _ =>
                if bool_decide (cmd = rev_parse_cmd)
                then Ok (printed ["/src"%string])
                else Ok (printed ["?? todo.txt"%string]);
              vim_command := fun _ => Ok tt;
              fresh_ident := 2 |} in
  git_toplevel w (action__path candidate)
  = Ok (Some {| ident := 2; value := lit "/src" |})
  /\ exists self' calls,
       get w candidate example_column = (Ok (lit "  "), self', calls)
       /\ refreshes calls = 1
       /\ cache self' = [lit "?? todo.txt"].
Proof.
  cbv zeta. split; [by vm_compute|].
  eexists _, _. split; [by vm_compute|]. split; by vm_compute.
Qed.

(** ** Failures of the external commands *)

(** C6 (the code at the failing input).  Without a git executable
    [subprocess.run] raises [FileNotFoundError].  The handlers of
    [find_git_root] and [cache_status] catch [CalledProcessError] only, so
    the exception leaves both of them and leaves [get] for a root
    candidate.  And when [git status] fails with a message, the message,
    which is captured with the output, becomes the cache. *)
Lemma git_failure_escapes :
  let candidate := {| is_root := Some true; action__path := lit "/home/u/proj";
                      is_directory := true |} in
  let message :=
    "fatal: not a git repository (or any of the parent directories): .git"
    %string in
  find_git_root world_without_git (lit "/home/u/proj") new_column
  = (Raise FileNotFoundError, new_column,
     [SubprocessRun rev_parse_cmd (Some (lit "/home/u/proj"))])
  /\ cache_status world_without_git (Some (lit "/src")) example_column
     = (Raise FileNotFoundError, with_cache [] example_column,
        [SubprocessRun (status_cmd example_column) (Some (lit "/src"))])
  /\ get world_without_git candidate new_column
     = (Raise FileNotFoundError, new_column,
        [SubprocessRun rev_parse_cmd (Some (lit "/home/u/proj"))])
  /\ cache_status (world_printing (printed [message])) (Some (lit "/src"))
                  example_column
     = (Ok tt, with_cache [lit message] example_column,
        [SubprocessRun (status_cmd example_column) (Some (lit "/src"))]).
Proof. cbv zeta. repeat split; by vm_compute. Qed.

(** ** Lines without both status codes *)

(** A sort raises only what a comparison raises. *)
Section sort_raises.
Context {A : Type} (islt : A -> A -> result bool).

Lemma run_descending_raises prev l e :
  run_descending islt prev l = Raise e -> exists a b, islt a b = Raise e.
Proof.
  revert prev. induction l as [|x l IH]; intros prev; cbn; [done|].
  destruct (islt x prev) as [[]|e'] eqn:Hlt; cbn.
  - destruct (run_descending islt x l) eqn:Hrun; [done|].
    intros [= <-]. eauto.
  - done.
  - intros [= <-]. eauto.
Qed.

Lemma run_ascending_raises prev l e :
  run_ascending islt prev l = Raise e -> exists a b, islt a b = Raise e.
Proof.
  revert prev. induction l as [|x l IH]; intros prev; cbn; [done|].
  destruct (islt x prev) as [[]|e'] eqn:Hlt; cbn.
  - done.
  - destruct (run_ascending islt x l) eqn:Hrun; [done|].
    intros [= <-]. eauto.
  - intros [= <-]. eauto.
Qed.

Lemma count_run_raises l e :
  count_run islt l = Raise e -> exists a b, islt a b = Raise e.
Proof.
  destruct l as [|x [|y l]]; cbn; [done..|].
  destruct (islt y x) as [[]|e'] eqn:Hlt; cbn.
  - destruct (run_descending islt y l) eqn:Hrun; [done|].
    intros [= <-]. by eapply run_descending_raises.
  - destruct (run_ascending islt y l) eqn:Hrun; [done|].
    intros [= <-]. by eapply run_ascending_raises.
  - intros [= <-]. eauto.
Qed.

Lemma bisect_raises fuel pivot a l r e :
  bisect islt fuel pivot a l r = Raise e -> exists a b, islt a b = Raise e.
Proof.
  revert l r. induction fuel as [|fuel IH]; intros l r; cbn [bisect]; [done|].
  case_bool_decide; [|done]. destruct (a !! _) as [x|]; [|done].
  destruct (islt pivot x) as [[]|e'] eqn:Hlt; cbn [mbind result_bind].
  - apply IH.
  - apply IH.
  - intros [= <-]. eauto.
Qed.

Lemma binarysort_raises run todo e :
  binarysort islt run todo = Raise e -> exists a b, islt a b = Raise e.
Proof.
  revert run. induction todo as [|x todo IH]; intros run; cbn; [done|].
  destruct (bisect _ _ _ _ _ _) as [k|e'] eqn:Hbisect; cbn.
  - apply IH.
  - intros [= <-]. by eapply bisect_raises.
Qed.

Lemma list_sort_raises l e :
  list_sort islt l = Raise e -> exists a b, islt a b = Raise e.
Proof.
  unfold list_sort. case_bool_decide; [done|].
  destruct (count_run islt l) as [[n d]|e'] eqn:Hrun; cbn.
  - apply binarysort_raises.
  - intros [= <-]. by eapply count_run_raises.
Qed.
End sort_raises.

Lemma sorted_sort_raises (lines : list str) e :
  sorted lines (cmp_to_key sort) = Raise e -> e = IndexError.
Proof.
  intros (a & b & Hcmp)%list_sort_raises. unfold cmp_to_key in Hcmp.
  destruct (sort a b) eqn:Hsort; [done|].
  injection Hcmp as <-. by eapply sort_raises.
Qed.




(** ** Where the lookup strips the root prefix only *)

Lemma replace_from_skip (old new : str) k (s : str) :
  replace_from old new k s = replace_from old new 0 (drop k s).
Proof.
  revert k. induction s as [|c s IH]; intros [|k]; cbn [replace_from drop];
    done.
Qed.

Lemma replace_from_no_occurrence (old : str) (s : str) :
  old ≠ [] ->
  (forall i, startswith (drop i s) old = false) ->
  replace_from old [] 0 s = s.
Proof.
  intros Hold. induction s as [|c s IH]; intros Hs; [done|].
  pose proof (Hs 0) as Hhere. rewrite drop_0 in Hhere.
  cbn [replace_from]. rewrite Hhere. f_equal.
  apply IH. intros i. apply (Hs (S i)).
Qed.

Lemma replace_prefix (old rest : str) :
  old ≠ [] -> replace (old ++ rest) old [] = replace rest old [].
Proof.
  intros Hold. destruct old as [|c old]; [done|].
  unfold replace. cbn [app replace_from].
  assert (startswith (c :: old ++ rest) (c :: old) = true) as ->
    by (apply startswith_app; eauto).
  cbn [app length].
  replace (S (length old) - 1) with (length old) by lia.
  rewrite replace_from_skip.
  by rewrite drop_app_length.
Qed.

(** For a candidate under the root whose path does not contain the root,
    followed by '/', a second time, the lookup is for the path without its
    leading root prefix, with '/' appended for a directory. *)
Lemma cache_key_under_root self candidate root (relative : str) :
  git_root self = Some root ->
  action__path candidate = value root ++ lit "/" ++ relative ->
  (forall i, startswith (drop i relative) (value root ++ lit "/") = false) ->
  cache_key self candidate
  = relative ++ (if is_directory candidate then lit "/" else []).
Proof.
  intros Hroot Hpath Hrelative. unfold cache_key.
  rewrite Hroot, Hpath. cbn [fstring]. f_equal.
  assert (value root ++ lit "/" ≠ []) as Hold by (by destruct (value root)).
  rewrite app_assoc, replace_prefix by done.
  destruct (value root ++ lit "/") as [|c old] eqn:Hold'; [done|].
  unfold replace. by apply replace_from_no_occurrence.
Qed.

(** * Further properties *)

(** ** The codes of each category *)

Ltac char_values :=
  repeat match goal with
         | |- context [chr ?a] =>
           let v := eval vm_compute in (chr a) in change (chr a) with v
         | H : context [chr ?a] |- _ =>
           let v := eval vm_compute in (chr a) in change (chr a) with v in H
         end.

Ltac char_cases :=
  repeat match goal with
         | |- context [N.eqb ?x ?y] => destruct (N.eqb_spec x y)
         end.

(** X1. The pairs of codes of each category: Untracked is ('?','?') alone and
    Modified is (' ','M') alone; Staged, Renamed and Ignored are decided by
    the index code, whatever the worktree code; Unmerged is an index code
    'U', the pair ('D','D'), or a worktree code 'U' when the index code is
    none of 'M', 'A', 'C', 'R', '!'; every other pair is Unknown. *)
Theorem get_indicator_name_codes (i w : char) :
  let name := get_indicator_name [i] [w] in
  let index_decides :=
    i = chr "M" \/ i = chr "A" \/ i = chr "C" \/ i = chr "R" \/ i = chr "!" in
  let unmerged :=
    i = chr "U" \/ (i = chr "D" /\ w = chr "D")
    \/ (w = chr "U" /\ ~ index_decides) in
  (name = lit "Untracked" <-> i = chr "?" /\ w = chr "?")
  /\ (name = lit "Modified" <-> i = chr " " /\ w = chr "M")
  /\ (name = lit "Staged" <-> i = chr "M" \/ i = chr "A" \/ i = chr "C")
  /\ (name = lit "Renamed" <-> i = chr "R")
  /\ (name = lit "Ignored" <-> i = chr "!")
  /\ (name = lit "Unmerged" <-> unmerged)
  /\ (name = lit "Unknown" <->
      ~ (i = chr "?" /\ w = chr "?") /\ ~ (i = chr " " /\ w = chr "M")
      /\ ~ index_decides /\ ~ unmerged).
Proof.
  cbv zeta. rewrite get_indicator_name_first_rule.
  change (lit "Untracked") with (category_name Untracked).
  change (lit "Modified") with (category_name Modified).
  change (lit "Staged") with (category_name Staged).
  change (lit "Renamed") with (category_name Renamed).
  change (lit "Ignored") with (category_name Ignored).
  change (lit "Unmerged") with (category_name Unmerged).
  change (lit "Unknown") with (category_name Unknown).
  rewrite !(inj_iff category_name).
  unfold classify, precedence_rules, first_rule, is_char.
  char_values. char_cases; subst; cbn [andb orb];
    repeat split; intros; try discriminate; try lia; try done.
Qed.

(** ** The verdicts of the ordering *)

Lemma sort_tier (a b : str) :
  2 <= length a -> 2 <= length b ->
  sort a b
  = Ok (if decide (status_tier a <= status_tier b /\ status_tier a < 2)
        then (-1)%Z else 1%Z).
Proof.
  intros Ha Hb.
  destruct a as [|a0 [|a1 a]]; cbn in Ha; try lia.
  destruct b as [|b0 [|b1 b]]; cbn in Hb; try lia.
  rewrite !status_tier_cons2.
  unfold sort, or_, and_, not_, item_is, getitem.
  cbn -[is_char].
  destruct (is_char a0 "U"), (is_char a1 "U"), (is_char a0 "M"),
    (is_char a1 "M"), (is_char b0 "U"), (is_char b1 "U"),
    (is_char b0 "M"), (is_char b1 "M"); cbn;
    case_decide; try done; lia.
Qed.

Lemma status_tier_le_2 line : status_tier line <= 2.
Proof. unfold status_tier. repeat case_decide; lia. Qed.

(** X2. On two lines that have both status codes, [Column.sort] answers -1
    or 1 and never 0.  It strictly orders lines of different tiers (-1 one
    way, 1 the other way), and for two lines of the same tier it gives the
    same answer both ways: -1 and -1 in the 'U' tier and in the 'M' tier,
    1 and 1 among the remaining lines. *)
Theorem sort_verdicts (a b : str) :
  2 <= length a -> 2 <= length b ->
  exists ab ba,
    sort a b = Ok ab /\ sort b a = Ok ba
    /\ (ab = (-1)%Z \/ ab = 1%Z)
    /\ (status_tier a < status_tier b <-> ab = (-1)%Z /\ ba = 1%Z)
    /\ (status_tier a = status_tier b ->
        ab = ba /\ (ab = (-1)%Z <-> status_tier a < 2)).
Proof.
  intros Ha Hb. rewrite (sort_tier a b), (sort_tier b a) by done.
  eexists _, _. split; [done|]. split; [done|].
  pose proof (status_tier_le_2 a). pose proof (status_tier_le_2 b).
  repeat case_decide; repeat split; intros; try lia; auto.
Qed.

Lemma sort_verdicts_witness :
  2 <= length (lit "UU a") /\ 2 <= length (lit "UD b")
  /\ exists ab ba,
       sort (lit "UU a") (lit "UD b") = Ok ab
       /\ sort (lit "UD b") (lit "UU a") = Ok ba
       /\ (ab = (-1)%Z \/ ab = 1%Z)
       /\ (status_tier (lit "UU a") < status_tier (lit "UD b")
           <-> ab = (-1)%Z /\ ba = 1%Z)
       /\ (status_tier (lit "UU a") = status_tier (lit "UD b") ->
           ab = ba /\ (ab = (-1)%Z <-> status_tier (lit "UU a") < 2)).
Proof.
  split; [cbn; lia|]. split; [cbn; lia|].
  apply (sort_verdicts (lit "UU a") (lit "UD b")); cbn; lia.
Defined.

(** X3. [Column.sort] raises nothing but [IndexError], and exactly when it
    reads a character that is missing: the first line is empty; or it has one
    character, which is not 'U'; or the first line has both codes, none 'U'
    and one 'M', and the second line is empty or is one character other than
    'U'.  The second line is not read in any other case. *)
Theorem sort_raises_iff (a b : str) e :
  sort a b = Raise e <->
  e = IndexError
  /\ (a = []
      \/ (exists x, a = [x] /\ x ≠ chr "U")
      \/ (2 <= length a /\ ~ flagged "U" a /\ flagged "M" a
          /\ (b = [] \/ exists y, b = [y] /\ y ≠ chr "U"))).
Proof.
  assert (forall x (c : ascii), is_char x c = false -> x ≠ chr c) as Hne.
  { intros x c. unfold is_char. by intros ?%N.eqb_neq. }
  assert (forall x (c : ascii), is_char x c = true -> x = chr c) as Heq.
  { intros x c. unfold is_char. by intros ?%N.eqb_eq. }
  unfold sort, or_, and_, not_, item_is, getitem, flagged.
  destruct a as [|a0 [|a1 a]], b as [|b0 [|b1 b]];
    cbn -[is_char chr];
    repeat (match goal with
            | |- context [is_char ?x ?c] =>
              let H := fresh "Hc" in
              destruct (is_char x c) eqn:H;
              [apply Heq in H|apply Hne in H]
            end; cbn -[is_char chr]).
  all: split;
    [ intros [= <-] || (intros H; discriminate H)
    | intros [-> Hcases] ].
  all: try done.
  all: try (exfalso;
            destruct Hcases
              as [?|[(x & ? & ?)|(? & ? & ? & [?|(y & ? & ?)])]];
            simplify_eq; cbn in *; try lia; intuition congruence).
  all: split; [done|].
  all: first [ by left
             | by right; left; eauto
             | right; right; split; [cbn; lia|];
               split; [intuition congruence|];
               split; [first [left; congruence | right; congruence]|];
               first [by left | by right; eauto] ].
Qed.

(** ** The label *)

(** X4. [Column.format] pads and never cuts: the label is the given text
    followed by spaces only, its length is the larger of the length of the
    text and the column length (so a text longer than the column comes back
    unchanged and is wider than the column), and formatting a label again
    changes nothing. *)
Theorem format_pads self (column : str) :
  (exists padding, format self column = column ++ padding
                   /\ Forall (fun c => c = chr " ") padding)
  /\ length (format self column) = length column `max` column_length self
  /\ (column_length self <= length column -> format self column = column)
  /\ format self (format self column) = format self column.
Proof.
  unfold format, format_ljust. split; [|split; [|split]].
  - eexists. split; [done|]. apply Forall_replicate. done.
  - rewrite length_app, length_replicate. lia.
  - intros Hlong. replace (_ - _) with 0 by lia. apply app_nil_r.
  - rewrite length_app, length_replicate.
    replace (column_length self
             - (length column + (column_length self - length column)))
      with 0 by lia.
    apply app_nil_r.
Qed.

(** ** The lookup of a directory *)

Lemma first_match_matches path items :
  first_match path items ≠ [] ->
  first_match path items ∈ items
  /\ startswith (drop 3 (first_match path items)) path = true.
Proof.
  induction items as [|item items IH]; cbn; [done|].
  destruct (startswith (drop 3 item) path) eqn:Hitem.
  - intros _. split; [left|done].
  - intros [? ?]%IH. split; [by right|done].
Qed.

Lemma first_match_split path items :
  first_match path items ≠ [] ->
  exists before after,
    items = before ++ first_match path items :: after
    /\ Forall (fun item => startswith (drop 3 item) path = false) before.
Proof.
  induction items as [|item items IH]; cbn; [done|].
  destruct (startswith (drop 3 item) path) eqn:Hitem.
  - intros _. by exists [], items.
  - intros (before & after & Hitems & Hbefore)%IH.
    exists (item :: before), after. split.
    + cbn. by rewrite <- Hitems.
    + by constructor.
Qed.

Lemma first_match_complete path items line :
  path ≠ [] -> line ∈ items -> startswith (drop 3 line) path = true ->
  first_match path items ≠ [].
Proof.
  intros Hpath Hline Hmatch.
  induction items as [|item items IH]; [by apply elem_of_nil in Hline|].
  cbn. destruct (startswith (drop 3 item) path) eqn:Hitem.
  - intros ->. cbn in Hitem. by destruct path.
  - apply elem_of_cons in Hline as [->|Hline]; [congruence|]. by apply IH.
Qed.

(** X5. For a directory candidate the lookup matches what lies under the
    directory and nothing else: a line that is returned is a cached line
    whose path field is the relative name of the directory, then '/', then
    anything; and such a line is returned whenever the cache has one.  A
    cached path that merely starts with the name of the directory (the file
    [dirty.txt] for the directory [dir]) is not matched. *)
Theorem find_in_cache_directory self candidate :
  is_directory candidate = true ->
  let name := replace (action__path candidate)
                      (fstring (git_root self) ++ lit "/") [] in
  let under := fun line : str =>
    exists rest, drop 3 line = name ++ lit "/" ++ rest in
  (find_in_cache self candidate ≠ [] ->
   find_in_cache self candidate ∈ cache self
   /\ under (find_in_cache self candidate))
  /\ ((exists line, line ∈ cache self /\ under line) ->
      find_in_cache self candidate ≠ []).
Proof.
  intros Hdir name under.
  assert (cache_key self candidate = name ++ lit "/") as Hkey.
  { unfold cache_key. by rewrite Hdir. }
  assert (forall line, under line
                       <-> startswith (drop 3 line) (name ++ lit "/") = true)
    as Hunder.
  { intros line. rewrite startswith_app. unfold under.
    by setoid_rewrite <- app_assoc. }
  unfold find_in_cache. rewrite Hkey. split.
  - intros [? ?]%first_match_matches. by rewrite Hunder.
  - intros (line & Hline & Hmatch%Hunder).
    eapply first_match_complete; [|done..]. by destruct name.
Qed.

Lemma find_in_cache_directory_witness :
  let candidate := {| is_root := None; action__path := lit "/src/dir";
                      is_directory := true |} in
  let self := with_cache (lit <$> ["?? dirty.txt"; " M dir/a.c"]%string)
                         example_column in
  is_directory candidate = true
  /\ find_in_cache self candidate = lit " M dir/a.c"
  /\ (find_in_cache self candidate ≠ [] ->
      find_in_cache self candidate ∈ cache self
      /\ exists rest, drop 3 (find_in_cache self candidate)
                      = replace (action__path candidate)
                                (fstring (git_root self) ++ lit "/") []
                        ++ lit "/" ++ rest).
Proof.
  cbv zeta. split; [done|]. split; [by vm_compute|].
  exact (proj1 (find_in_cache_directory
                  (with_cache (lit <$> ["?? dirty.txt"; " M dir/a.c"]%string)
                              example_column)
                  {| is_root := None; action__path := lit "/src/dir";
                     is_directory := true |} eq_refl)).
Defined.

(** ** The cache after a refresh *)

Lemma split_no_sep (s : str) sep piece :
  piece ∈ split s sep -> sep ∉ piece.
Proof.
  revert piece. induction s as [|c s IH]; intros piece; cbn.
  { intros ->%list_elem_of_singleton. apply not_elem_of_nil. }
  destruct (N.eqb_spec c sep) as [->|Hc].
  - intros [->|?]%elem_of_cons; [apply not_elem_of_nil|by apply IH].
  - destruct (split s sep) as [|first pieces].
    + intros ->%list_elem_of_singleton.
      intros [?|?%elem_of_nil]%elem_of_cons; done.
    + intros [->|?]%elem_of_cons.
      * intros [?|?]%elem_of_cons; [done|]. eapply IH; [left|done].
      * apply IH. by right.
Qed.

(** What a refresh that returns leaves in the cache. *)
Lemma cache_status_returns w path self self' calls :
  cache_status w path self = (Ok tt, self', calls) ->
  exists lines,
    cache self' ≡ₚ lines
    /\ Forall (fun line => line ≠ [] /\ newline ∉ line) lines
    /\ (Forall (fun line : str => 2 <= length line) lines ->
        cache self' = tiered status_tier lines).
Proof.
  rewrite cache_status_unfold. cbv zeta.
  assert (exists lines : list str,
             @nil str ≡ₚ lines
             /\ Forall (fun line => line ≠ [] /\ newline ∉ line) lines
             /\ (Forall (fun line : str => 2 <= length line) lines ->
                 [] = tiered status_tier lines)) as Hempty.
  { exists []. split; [done|]. split; [constructor|done]. }
  destruct (subprocess_run _ _ _) as [stdout|e].
  - destruct (decode_utf8 stdout) as [decoded|e]; [|done].
    case_bool_decide; [by intros [= <- <-]|].
    destruct (sorted _ _) as [lines|e] eqn:Hsorted; [|done].
    intros [= <- <-]. cbn. exists (status_lines decoded).
    split; [by eapply list_sort_Permutation|]. split.
    + apply Forall_forall. intros line.
      unfold status_lines. rewrite list_elem_of_filter.
      intros [? ?%split_no_sep]. done.
    + intros Hlines. rewrite sorted_tiered in Hsorted by done. congruence.
  - case_bool_decide; [by intros [= <- <-]|done].
Qed.

(** X6. After a refresh that returns with fewer than 64 lines, no cached
    line is empty and no cached line contains a line break. *)
Theorem cache_status_lines_clean w path self self' calls :
  cache_status w path self = (Ok tt, self', calls) ->
  length (cache self') < 64 ->
  Forall (fun line => line ≠ [] /\ newline ∉ line) (cache self').
Proof.
  intros (lines & Hperm & Hlines & _)%cache_status_returns _.
  by rewrite Hperm.
Qed.

Lemma cache_status_lines_clean_witness :
  let w := world_printing (printed ["M  a.txt"; ""; "?? b c.txt"]%string) in
  let self' := with_cache (lit <$> ["M  a.txt"; "?? b c.txt"]%string)
                          new_column in
  cache_status w None new_column
  = (Ok tt, self', [SubprocessRun (status_cmd new_column) None])
  /\ length (cache self') < 64
  /\ Forall (fun line => line ≠ [] /\ newline ∉ line) (cache self').
Proof.
  cbv zeta.
  assert (cache_status
            (world_printing (printed ["M  a.txt"; ""; "?? b c.txt"]%string))
            None new_column
          = (Ok tt,
             with_cache (lit <$> ["M  a.txt"; "?? b c.txt"]%string)
                        new_column,
             [SubprocessRun (status_cmd new_column) None])) as Hstatus
    by (by vm_compute).
  split; [done|]. split; [cbn; lia|].
  apply (cache_status_lines_clean _ _ _ _ _ Hstatus). cbn. lia.
Defined.

(** ** The most severe match *)

Lemma StronglySorted_same_tier k (l : list str) :
  Forall (fun line => status_tier line = k) l ->
  StronglySorted (fun x y => status_tier x <= status_tier y) l.
Proof.
  induction 1 as [|x l Hx Hl IH]; constructor; [done|].
  eapply Forall_impl; [done|]. cbn. lia.
Qed.

Lemma tiered_StronglySorted (lines : list str) :
  StronglySorted (fun x y => status_tier x <= status_tier y)
                 (tiered status_tier lines).
Proof.
  assert (forall k (P : str -> Prop) `{!forall x, Decision (P x)},
             (forall x, P x -> status_tier x = k) ->
             Forall (fun line => status_tier line = k) (filter P lines))
    as Hfilter.
  { intros k P ? HP. apply Forall_forall.
    intros x [? _]%list_elem_of_filter. auto. }
  unfold tiered. apply StronglySorted_app_2; [| |apply StronglySorted_app_2].
  - intros x y [Hx _]%elem_of_reverse%list_elem_of_filter _. lia.
  - apply (StronglySorted_same_tier 0), Forall_reverse, Hfilter. done.
  - intros x y [Hx _]%elem_of_reverse%list_elem_of_filter
                 [Hy _]%list_elem_of_filter. lia.
  - apply (StronglySorted_same_tier 1), Forall_reverse, Hfilter. done.
  - apply (StronglySorted_same_tier 2), Hfilter.
    intros x Hx. pose proof (status_tier_le_2 x). lia.
Qed.

Lemma first_match_first path items line :
  Forall (fun item : str => item ≠ []) items ->
  line ∈ items -> startswith (drop 3 line) path = true ->
  exists before after,
    items = before ++ first_match path items :: after
    /\ startswith (drop 3 (first_match path items)) path = true
    /\ line ∈ first_match path items :: after.
Proof.
  intros Hitems Hline Hmatch.
  induction Hitems as [|item items Hitem Hitems IH];
    [by apply elem_of_nil in Hline|].
  cbn. destruct (startswith (drop 3 item) path) eqn:Hstart.
  - by exists [], items.
  - apply elem_of_cons in Hline as [->|Hline]; [congruence|].
    destruct (IH Hline) as (before & after & Heq & ? & ?).
    exists (item :: before), after. cbn. by rewrite <- Heq.
Qed.

(** X7. After a refresh that returns with fewer than 64 lines, each with both
    status codes, the line that the lookup returns for a candidate is the
    most severe of the cached lines that match the candidate: it is a cached
    line that matches, and no matching line has a lower tier ('U' before 'M'
    before the rest). *)
Theorem find_in_cache_most_severe w path self self' calls candidate line :
  cache_status w path self = (Ok tt, self', calls) ->
  Forall (fun line => 2 <= length line) (cache self') ->
  length (cache self') < 64 ->
  line ∈ cache self' ->
  startswith (drop 3 line) (cache_key self' candidate) = true ->
  let found := find_in_cache self' candidate in
  found ∈ cache self'
  /\ startswith (drop 3 found) (cache_key self' candidate) = true
  /\ status_tier found <= status_tier line.
Proof.
  intros (lines & Hperm & _ & Htiered)%cache_status_returns Hcache _
         Hline Hmatch.
  assert (StronglySorted (fun x y => status_tier x <= status_tier y)
                         (cache self')) as Hsorted.
  { rewrite Htiered by (by rewrite <- Hperm). apply tiered_StronglySorted. }
  unfold find_in_cache. cbv zeta.
  destruct (first_match_first (cache_key self' candidate)
              (cache self') line) as (before & after & Heq & Hfound & Hin);
    [|done|done|].
  { eapply Forall_impl; [done|]. intros [|] ?; cbn in *; [lia|done]. }
  split; [|split; [done|]].
  - rewrite Heq at 2. apply elem_of_app. right. left.
  - rewrite Heq in Hsorted.
    apply StronglySorted_app_1_r, StronglySorted_cons in Hsorted
      as [Hafter _].
    apply elem_of_cons in Hin as [->|Hin]; [done|].
    rewrite Forall_forall in Hafter. by apply Hafter.
Qed.

Lemma find_in_cache_most_severe_witness :
  let w := world_printing (printed ["?? lib/new.c"; " M lib/src/x.c";
                                    "UU lib/merge.c"]%string) in
  let self' := with_cache (lit <$> ["UU lib/merge.c"; " M lib/src/x.c";
                                    "?? lib/new.c"]%string) example_column in
  let candidate := {| is_root := None; action__path := lit "/src/lib";
                      is_directory := true |} in
  cache_status w (Some (lit "/src")) example_column
  = (Ok tt, self', [SubprocessRun (status_cmd example_column)
                                  (Some (lit "/src"))])
  /\ find_in_cache self' candidate = lit "UU lib/merge.c"
  /\ status_tier (find_in_cache self' candidate)
     <= status_tier (lit "?? lib/new.c").
Proof.
  cbv zeta.
  assert (cache_status
            (world_printing (printed ["?? lib/new.c"; " M lib/src/x.c";
                                      "UU lib/merge.c"]%string))
            (Some (lit "/src")) example_column
          = (Ok tt,
             with_cache (lit <$> ["UU lib/merge.c"; " M lib/src/x.c";
                                  "?? lib/new.c"]%string) example_column,
             [SubprocessRun (status_cmd example_column)
                            (Some (lit "/src"))])) as Hstatus
    by (by vm_compute).
  split; [done|]. split; [by vm_compute|].
  refine (proj2 (proj2 (find_in_cache_most_severe _ _ _ _ _
                          {| is_root := None; action__path := lit "/src/lib";
                             is_directory := true |}
                          (lit "?? lib/new.c") Hstatus _ _ _ _))).
  - repeat constructor; cbn; lia.
  - cbn. lia.
  - apply list_elem_of_In. cbn. auto.
  - by vm_compute.
Defined.

(** ** What a lookup raises *)

(** X8. For a candidate that is not flagged as root, [Column.get] raises in
    two cases only, and leaves the column as it was: [IndexError] when the
    matching line has a single character, and [KeyError] when the category
    of the two codes of the matching line has no glyph in the settings. *)
Theorem get_non_root_raises w candidate self e :
  is_root candidate ≠ Some true ->
  let entry := find_in_cache self candidate in
  get w candidate self = (Raise e, self, []) <->
  (exists us, entry = [us] /\ e = IndexError)
  \/ (exists us them rest,
        entry = us :: them :: rest
        /\ indicators self !! get_indicator_name [us] [them] = None
        /\ e = KeyError).
Proof.
  intros Hroot entry.
  rewrite get_non_root_unfold, get_entry_unfold by done. cbv zeta.
  fold entry. unfold find_in_cache in entry.
  assert (cache self = [] -> entry = []) as Hempty
    by (by unfold entry; intros ->).
  case_bool_decide as Hcache.
  { rewrite Hempty by done. split; [done|].
    intros [(? & ? & _)|(? & ? & ? & ? & _)]; done. }
  case_bool_decide as Hentry.
  { rewrite Hentry. split; [done|].
    intros [(? & ? & _)|(? & ? & ? & ? & _)]; done. }
  destruct entry as [|us [|them rest]]; [done| |].
  - cbn. split; [intros [= <-]; eauto|].
    intros [(? & _ & ->)|(? & ? & ? & ? & _)]; done.
  - cbn [getitem lookup list_lookup mbind result_bind]. unfold dict_getitem.
    destruct (indicators self !! _) as [icon|] eqn:Hicon; cbn.
    + split; [done|].
      intros [(? & ? & _)|(? & ? & ? & [= <- <- <-] & ? & _)]; congruence.
    + split; [intros [= <-]; right; eauto 10|].
      intros [(? & ? & _)|(? & ? & ? & _ & _ & ->)]; done.
Qed.

Lemma get_non_root_raises_witness :
  let candidate := {| is_root := None; action__path := lit "/src/dirty.txt";
                      is_directory := false |} in
  let self := with_cache [lit "?? dirty.txt"]
                (__init__ {[ lit "Modified" := lit "M" ]} 2 false) in
  is_root candidate ≠ Some true
  /\ get world_without_git candidate
         (with_git_root (Some {| ident := 1; value := lit "/src" |}) self)
     = (Raise KeyError,
        with_git_root (Some {| ident := 1; value := lit "/src" |}) self, []).
Proof.
  cbv zeta. split; [done|].
  apply (get_non_root_raises world_without_git
           {| is_root := None; action__path := lit "/src/dirty.txt";
              is_directory := false |}); [done|].
  right. exists (chr "?"), (chr "?"), (lit " dirty.txt").
  split; [by vm_compute|]. split; [by vm_compute|done].
Defined.

(** ** The column after a call that raises *)

(** X9. When [Column.get] raises, the column is as it was before the call,
    unless the exception comes out of the refresh: then the root has
    already been replaced by the resolved one and the cache is empty.  In
    particular a failing root query or a failing echo changes nothing. *)
Theorem get_raises_column w candidate self e self' calls :
  get w candidate self = (Raise e, self', calls) ->
  (self' = self /\ refreshes calls = 0)
  \/ (exists root,
        is_root candidate = Some true
        /\ git_toplevel w (action__path candidate) = Ok root
        /\ self' = with_cache [] (with_git_root root self)
        /\ refreshes calls = 1).
Proof.
  destruct (decide (is_root candidate = Some true)) as [Hroot|Hroot].
  - rewrite get_root_unfold by done. cbv zeta.
    destruct (under_root self candidate); [done|].
    destruct (git_toplevel _ _) as [root|e'] eqn:Htop;
      [|intros [= <- <- <-]; by left].
    destruct (vim_command _ _); [|intros [= <- <- <-]; by left].
    destruct (is_not _ _).
    + rewrite cache_status_unfold. cbv zeta.
      change (status_cmd (with_git_root root self)) with (status_cmd self).
      intros Hget. right. exists root.
      assert (refreshes
                [SubprocessRun rev_parse_cmd (Some (action__path candidate));
                 VimCommand (echomsg (action__path candidate));
                 SubprocessRun (status_cmd self) (value <$> root)] = 1)
        as Hcalls by apply refreshes_root_calls.
      destruct (subprocess_run _ _ _) as [stdout|e''].
      * destruct (decode_utf8 stdout) as [decoded|e''].
        -- case_bool_decide; [done|].
           destruct (sorted _ _); [done|]. by injection Hget as <- <- <-.
        -- by injection Hget as <- <- <-.
      * case_bool_decide; [done|]. by injection Hget as <- <- <-.
    + rewrite get_entry_unfold. intros [= _ <- <-]. by left.
  - rewrite get_non_root_unfold, get_entry_unfold by done.
    intros [= _ <- <-]. by left.
Qed.

Lemma get_raises_column_witness :
  let candidate := {| is_root := Some true; action__path := lit "/tmp/notes";
                      is_directory := true |} in
  let w := {| subprocess_run := fun cmd _ =>
                if bool_decide (cmd = rev_parse_cmd) then Ok []
                else Raise FileNotFoundError;
              vim_command := fun _ => Ok tt;
              fresh_ident := 2 |} in
  let calls := [SubprocessRun rev_parse_cmd (Some (lit "/tmp/notes"));
                VimCommand (echomsg (lit "/tmp/notes"));
                SubprocessRun (status_cmd example_column) None] in
  get w candidate example_column
  = (Raise FileNotFoundError, with_cache [] (with_git_root None example_column),
     calls)
  /\ ((with_cache [] (with_git_root None example_column) = example_column
       /\ refreshes calls = 0)
      \/ exists root,
           is_root candidate = Some true
           /\ git_toplevel w (action__path candidate) = Ok root
           /\ with_cache [] (with_git_root None example_column)
              = with_cache [] (with_git_root root example_column)
           /\ refreshes calls = 1).
Proof.
  cbv zeta.
  assert (get {| subprocess_run := fun cmd _ =>
                   if bool_decide (cmd = rev_parse_cmd) then Ok []
                   else Raise FileNotFoundError;
                 vim_command := fun _ => Ok tt;
                 fresh_ident := 2 |}
              {| is_root := Some true; action__path := lit "/tmp/notes";
                 is_directory := true |} example_column
          = (Raise FileNotFoundError,
             with_cache [] (with_git_root None example_column),
             [SubprocessRun rev_parse_cmd (Some (lit "/tmp/notes"));
              VimCommand (echomsg (lit "/tmp/notes"));
              SubprocessRun (status_cmd example_column) None])) as Hget
    by (by vm_compute).
  split; [done|]. exact (get_raises_column _ _ _ _ _ _ Hget).
Defined.

(** ** Calls that the cache answers *)

Lemma get_cached (w : World) candidate self :
  is_root candidate ≠ Some true \/ under_root self candidate = true ->
  exists r, forall w', get w' candidate self = (r, self, []).
Proof.
  destruct (decide (is_root candidate = Some true)) as [Hroot|Hroot].
  - intros [?|Hunder]; [done|]. exists (Ok (format self [])). intros w'.
    by rewrite get_root_unfold, Hunder.
  - intros _. eexists. intros w'.
    by rewrite get_non_root_unfold, get_entry_unfold.
Qed.

Lemma gets_cached_all steps self :
  Forall (fun step : World * Candidate =>
            is_root step.2 ≠ Some true \/ under_root self step.2 = true)
         steps ->
  exists rs, gets steps self = (rs, self, [])
             /\ length rs = length steps.
Proof.
  induction 1 as [|[w candidate] steps Hstep _ (rs & IH & Hlen)].
  { by exists []. }
  destruct (get_cached w candidate self Hstep) as [r Hget].
  exists (r :: rs). cbn [gets]. rewrite Hget, IH. cbn. by rewrite Hlen.
Qed.

(** X10. As long as the candidates are not flagged as root, or are root
    candidates whose path starts with the cached root, a series of calls of
    [Column.get] starts no process and sends no command, and the column
    stays as it is; the outcome of each call is the outcome it has when
    made alone. *)
Theorem gets_cached steps self :
  Forall (fun step : World * Candidate =>
            is_root step.2 ≠ Some true \/ under_root self step.2 = true)
         steps ->
  gets steps self
  = ((fun step : World * Candidate => (get step.1 step.2 self).1.1) <$> steps,
     self, []).
Proof.
  induction 1 as [|[w candidate] steps Hstep _ IH]; [done|].
  destruct (get_cached w candidate self Hstep) as [r Hget].
  cbn [gets fmap list_fmap fst snd]. rewrite !Hget, IH. done.
Qed.

Lemma gets_cached_witness :
  let steps :=
    [ (world_without_git,
       {| is_root := Some true; action__path := lit "/src/lib";
          is_directory := true |});
      (world_printing (printed ["?? other.txt"]%string),
       {| is_root := None; action__path := lit "/src/dirty.txt";
          is_directory := false |}) ] in
  Forall (fun step : World * Candidate =>
            is_root step.2 ≠ Some true
            \/ under_root example_column step.2 = true) steps
  /\ gets steps example_column
     = ([Ok (lit "  "); Ok [0x272D%N; chr " "]], example_column, []).
Proof.
  cbv zeta.
  assert (Forall (fun step : World * Candidate =>
                    is_root step.2 ≠ Some true
                    \/ under_root example_column step.2 = true)
            [ (world_without_git,
               {| is_root := Some true; action__path := lit "/src/lib";
                  is_directory := true |});
              (world_printing (printed ["?? other.txt"]%string),
               {| is_root := None; action__path := lit "/src/dirty.txt";
                  is_directory := false |}) ]) as Hsteps.
  { constructor; [by right|]. constructor; [by left|]. constructor. }
  split; [done|]. rewrite (gets_cached _ _ Hsteps). by vm_compute.
Defined.

(** ** A root that is the empty string *)

Lemma lstrip_all (s : str) c : Forall (fun d => d = c) s -> lstrip s c = [].
Proof.
  induction 1 as [|d s -> _ IH]; [done|]. cbn. by rewrite N.eqb_refl.
Qed.

(** X11. When the root query prints line breaks and nothing else,
    [Column.find_git_root] returns the empty string and not [None].  And
    once the cached root is the empty string, the path of every candidate
    starts with it: whatever candidates follow, flagged as root or not,
    nothing is resolved or refreshed any more and the column stays as it
    is. *)
Theorem empty_root_is_kept :
  (forall w path stdout decoded,
      subprocess_run w rev_parse_cmd (Some path) = Ok stdout ->
      decode_utf8 stdout = Ok decoded ->
      decoded ≠ [] -> Forall (fun c => c = newline) decoded ->
      git_toplevel w path
      = Ok (Some {| ident := fresh_ident w; value := [] |}))
  /\ (forall self root steps,
         git_root self = Some root -> value root = [] ->
         exists rs, gets steps self = (rs, self, [])
                    /\ length rs = length steps).
Proof.
  split.
  - intros w path stdout decoded Hrun Hdecode Hdecoded Hall.
    unfold git_toplevel. rewrite Hrun, Hdecode. cbn.
    rewrite bool_decide_eq_false_2 by done.
    unfold strip. by rewrite lstrip_all.
  - intros self root steps Hroot Hvalue.
    apply gets_cached_all, Forall_forall. intros [w candidate] _.
    right. unfold under_root. rewrite Hroot, Hvalue. cbn.
    by destruct (action__path candidate).
Qed.

(** ** Asking for the same root again *)

(** X12. When the root query resolves a root candidate to a root that its
    path starts with, and this root is not the cached object, the call
    makes the status query once and caches the root, also when the refresh
    raises; asking for the same candidate again, in whatever world, then
    starts no process, changes nothing and gives the empty label. *)
Theorem get_root_again w w' candidate self root :
  is_root candidate = Some true ->
  under_root self candidate = false ->
  git_toplevel w (action__path candidate) = Ok (Some root) ->
  vim_command w (echomsg (action__path candidate)) = Ok tt ->
  is_not (Some root) (git_root self) = true ->
  startswith (action__path candidate) (value root) = true ->
  exists r self' calls,
    get w candidate self = (r, self', calls)
    /\ refreshes calls = 1
    /\ git_root self' = Some root
    /\ get w' candidate self' = (Ok (format self []), self', []).
Proof.
  intros Hroot Hunder Htop Hvim Hnot Hstarts.
  rewrite (get_root_unfold w), Hunder by done. cbv zeta.
  rewrite Htop, Hvim, Hnot.
  destruct (cache_status_outcome w (value <$> Some root)
              (with_git_root (Some root) self)) as (r & lines & ->).
  eexists _, _, _. split; [done|]. split; [apply refreshes_root_calls|].
  split; [done|].
  rewrite get_root_unfold by done. cbv zeta.
  unfold under_root. cbn. by rewrite Hstarts.
Qed.

Lemma get_root_again_witness :
  let candidate := {| is_root := Some true; action__path := lit "/src/lib";
                      is_directory := true |} in
  let w := {| subprocess_run := fun cmd _ =>
                if bool_decide (cmd = rev_parse_cmd)
                then Ok (printed ["/src"%string])
                else Ok (printed ["?? todo.txt"%string]);
              vim_command := fun _ => Ok tt;
              fresh_ident := 2 |} in
  let self' := {| cache := [lit "?? todo.txt"];
                  git_root := Some {| ident := 2; value := lit "/src" |};
                  indicators := example_indicators;
                  column_length := 2; show_ignored := false |} in
  is_root candidate = Some true
  /\ get w candidate new_column
     = (Ok (lit "  "), self',
        [SubprocessRun rev_parse_cmd (Some (lit "/src/lib"));
         VimCommand (echomsg (lit "/src/lib"));
         SubprocessRun (status_cmd new_column) (Some (lit "/src"))])
  /\ exists r self'' calls,
       get w candidate new_column = (r, self'', calls)
       /\ refreshes calls = 1
       /\ git_root self'' = Some {| ident := 2; value := lit "/src" |}
       /\ get world_without_git candidate self''
          = (Ok (format new_column []), self'', []).
Proof.
  cbv zeta. split; [done|]. split; [by vm_compute|].
  apply (get_root_again _ world_without_git
           {| is_root := Some true; action__path := lit "/src/lib";
              is_directory := true |} new_column
           {| ident := 2; value := lit "/src" |});
    by vm_compute.
Defined.

(** ** What the root query gives *)

Lemma lstrip_head (s : str) c : head s ≠ Some c -> lstrip s c = s.
Proof.
  destruct s as [|d s]; [done|]. cbn. intros Hd.
  destruct (N.eqb_spec d c) as [->|]; done.
Qed.

Lemma rstrip_snoc (s : str) c : last s ≠ Some c -> rstrip (s ++ [c]) c = s.
Proof.
  intros Hlast. unfold rstrip. rewrite reverse_snoc. cbn.
  rewrite N.eqb_refl, lstrip_head by (by rewrite head_reverse).
  apply reverse_involutive.
Qed.

Lemma decode_points_nil bs : decode_points bs = Ok [] -> bs = [].
Proof.
  destruct bs as [|b0 r0]; [done|]. cbn [decode_points].
  repeat (case_match; try done);
    match goal with
    | |- cons _ <$> ?d = _ -> _ => by destruct d
    end.
Qed.

(** X13. When the root query prints a path followed by a line break, and the
    path neither starts nor ends with a line break, [Column.find_git_root]
    returns a new string object whose value is exactly this path.  It
    returns [None] in two cases only: the query printed nothing, or
    [subprocess.run] raised [CalledProcessError]. *)
Theorem find_git_root_result w path self :
  let call := SubprocessRun rev_parse_cmd (Some path) in
  (forall stdout top,
      subprocess_run w rev_parse_cmd (Some path) = Ok stdout ->
      decode_utf8 stdout = Ok (top ++ [newline]) ->
      head top ≠ Some newline -> last top ≠ Some newline ->
      find_git_root w path self
      = (Ok (Some {| ident := fresh_ident w; value := top |}), self, [call]))
  /\ (find_git_root w path self = (Ok None, self, [call]) <->
      subprocess_run w rev_parse_cmd (Some path) = Ok []
      \/ subprocess_run w rev_parse_cmd (Some path)
         = Raise CalledProcessError).
Proof.
  cbv zeta. rewrite find_git_root_unfold. unfold git_toplevel. split.
  - intros stdout top -> Hdecode Hhead Hlast. rewrite Hdecode. cbn.
    rewrite bool_decide_eq_false_2 by (by destruct top).
    unfold strip. destruct top as [|c top]; [done|].
    by rewrite lstrip_head, rstrip_snoc.
  - destruct (subprocess_run _ _ _) as [stdout|e].
    + destruct (decode_utf8 stdout) as [decoded|e] eqn:Hdecode; cbn.
      * case_bool_decide as Hdecoded.
        -- subst decoded. apply decode_points_nil, fmap_nil_inv in Hdecode.
           subst. by split; [left|].
        -- split; [done|]. intros [[= ->]|?]; [|done].
           by injection Hdecode as <-.
      * split; [done|]. intros [[= ->]|?]; done.
    + case_bool_decide as He; [subst; by split; [right|]|].
      split; [done|]. intros [?|[= ->]]; done.
Qed.

(** ** The highlight commands *)

Lemma colors_categories name :
  is_Some (colors !! name) <-> exists category, name = category_name category.
Proof.
  split.
  - intros Hname%elem_of_dom. unfold colors in Hname.
    rewrite dom_list_to_map_L, elem_of_list_to_set in Hname.
    cbn [fmap list_fmap fst] in Hname.
    rewrite !elem_of_cons, elem_of_nil in Hname.
    destruct Hname as [->|[->|[->|[->|[->|[->|[->|[]]]]]]]].
    + by exists Modified.
    + by exists Staged.
    + by exists Renamed.
    + by exists Unmerged.
    + by exists Untracked.
    + by exists Ignored.
    + by exists Unknown.
  - intros [[] ->]; eexists; by vm_compute.
Qed.

Lemma highlight_cons_found w syntax_name name icon color items self :
  (forall c, vim_command w c = Ok tt) ->
  colors !! name = Some color ->
  highlight w syntax_name ((name, icon) :: items) self
  = let '(r, self', calls) := highlight w syntax_name items self in
    (r, self',
     VimCommand (syntax_match syntax_name name icon)
     :: VimCommand (highlight_default syntax_name name color) :: calls).
Proof.
  intros Hvim Hcolor. cbn [highlight].
  unfold mbind, M_bind, command, lift, dict_getitem.
  rewrite !Hvim, Hcolor, Hvim.
  by destruct (highlight w syntax_name items self) as [[r self'] calls].
Qed.

Lemma highlight_cons_missing w syntax_name name icon items self :
  (forall c, vim_command w c = Ok tt) ->
  colors !! name = None ->
  highlight w syntax_name ((name, icon) :: items) self
  = (Raise KeyError, self, [VimCommand (syntax_match syntax_name name icon)]).
Proof.
  intros Hvim Hcolor. cbn [highlight].
  unfold mbind, M_bind, command, lift, dict_getitem.
  by rewrite !Hvim, Hcolor.
Qed.

(** X14. [self.colors] has a colour for the names of the seven categories
    and for no other name.  With vim accepting every command,
    [Column.highlight] sends, for each configured indicator in the order of
    the dictionary, its syntax match and then its highlight, and leaves the
    column as it is, when every configured name is the name of a category.
    At the first configured name that is not, it raises [KeyError] after
    the syntax match of that name has been sent; the indicators that come
    later in the dictionary get no command. *)
Theorem highlight_outcome w syntax_name items self :
  (forall c, vim_command w c = Ok tt) ->
  let known := fun item : str * str => is_Some (colors !! item.1) in
  let commands := fun items : list (str * str) =>
    item ← items;
    [VimCommand (syntax_match syntax_name item.1 item.2);
     VimCommand (highlight_default syntax_name item.1
                                   (default [] (colors !! item.1)))] in
  (forall name, is_Some (colors !! name)
                <-> exists category, name = category_name category)
  /\ (Forall known items ->
      highlight w syntax_name items self = (Ok tt, self, commands items))
  /\ (forall before name icon after,
         items = before ++ (name, icon) :: after ->
         Forall known before -> colors !! name = None ->
         highlight w syntax_name items self
         = (Raise KeyError, self,
            commands before
            ++ [VimCommand (syntax_match syntax_name name icon)])).
Proof.
  intros Hvim known commands. split; [apply colors_categories|].
  assert (forall name icon color items',
             colors !! name = Some color ->
             commands ((name, icon) :: items')
             = VimCommand (syntax_match syntax_name name icon)
               :: VimCommand (highlight_default syntax_name name color)
               :: commands items') as Hcommands.
  { intros name icon color items' Hcolor. unfold commands.
    rewrite bind_cons. cbn [fst snd app]. do 3 f_equal.
    exact (f_equal (fun color' => highlight_default syntax_name name
                                    (default [] color')) Hcolor). }
  split.
  - induction 1 as [|[name icon] items' [color Hcolor] _ IH]; [done|].
    cbn [fst] in Hcolor.
    rewrite (highlight_cons_found _ _ _ _ color), IH by done.
    by rewrite (Hcommands _ _ color).
  - intros before name icon after -> Hbefore Hname.
    induction Hbefore as [|[name' icon'] before [color Hcolor] _ IH].
    + cbn [app]. by rewrite highlight_cons_missing.
    + cbn [fst] in Hcolor. cbn [app].
      rewrite (highlight_cons_found _ _ _ _ color), IH by done.
      by rewrite (Hcommands _ _ color).
Qed.

Lemma highlight_outcome_witness :
  let items := [(lit "Modified", lit "M"); (lit "Conflict", lit "C");
                (lit "Staged", lit "S")] in
  (forall c, vim_command world_without_git c = Ok tt)
  /\ highlight world_without_git (lit "Defx_git") items new_column
     = (Raise KeyError, new_column,
        [VimCommand (syntax_match (lit "Defx_git") (lit "Modified") (lit "M"));
         VimCommand (highlight_default (lit "Defx_git") (lit "Modified")
                       (lit "guifg=#fabd2f ctermfg=214"));
         VimCommand (syntax_match (lit "Defx_git") (lit "Conflict")
                       (lit "C"))]).
Proof.
  cbv zeta. split; [done|].
  refine (proj2 (proj2 (highlight_outcome world_without_git (lit "Defx_git")
                          [(lit "Modified", lit "M");
                           (lit "Conflict", lit "C");
                           (lit "Staged", lit "S")] new_column _))
            [(lit "Modified", lit "M")] (lit "Conflict") (lit "C")
            [(lit "Staged", lit "S")] eq_refl _ _).
  - done.
  - constructor; [eexists; by vm_compute|constructor].
  - by vm_compute.
Defined.

(** ** A new column *)

(** X15. A column as [__init__] leaves it has no cached root and an empty
    cache, whatever the settings.  It answers every candidate that is not
    flagged as root with the empty label, without any external call.  Its
    first root candidate is never answered from the cache: the root query
    is made; and when that query finds no repository and the echo returns,
    the label is empty, no status query is made and the column stays
    without root and with an empty cache. *)
Theorem new_column_get defx_git_indicators defx_git_column_length
    defx_git_show_ignored :
  let self := __init__ defx_git_indicators defx_git_column_length
                       defx_git_show_ignored in
  let empty := replicate defx_git_column_length (chr " ") in
  (forall w candidate,
      is_root candidate ≠ Some true ->
      get w candidate self = (Ok empty, self, []))
  /\ (forall w candidate,
         is_root candidate = Some true ->
         exists r self' calls,
           get w candidate self
           = (r, self',
              SubprocessRun rev_parse_cmd (Some (action__path candidate))
              :: calls))
  /\ (forall w candidate,
         is_root candidate = Some true ->
         git_toplevel w (action__path candidate) = Ok None ->
         vim_command w (echomsg (action__path candidate)) = Ok tt ->
         get w candidate self
         = (Ok empty, self,
            [SubprocessRun rev_parse_cmd (Some (action__path candidate));
             VimCommand (echomsg (action__path candidate))])).
Proof.
  cbv zeta.
  assert (forall self, format self [] = replicate (column_length self) (chr " "))
    as Hempty.
  { intros self. unfold format, format_ljust. cbn. by rewrite Nat.sub_0_r. }
  split; [|split].
  - intros w candidate Hroot.
    by rewrite get_non_root_unfold, get_entry_unfold, Hempty.
  - intros w candidate Hroot. rewrite get_root_unfold by done. cbv zeta.
    cbn [under_root __init__ git_root].
    destruct (git_toplevel _ _) as [root|]; [|eauto].
    destruct (vim_command _ _); [|eauto].
    destruct (is_not _ _).
    + destruct (cache_status _ _ _) as [[? ?] ?]. eauto.
    + destruct (get_entry _ _) as [[? ?] ?]. eauto.
  - intros w candidate Hroot Htop Hvim.
    rewrite get_root_unfold by done. cbv zeta.
    cbn [under_root __init__ git_root]. rewrite Htop, Hvim. cbn [is_not].
    by rewrite get_entry_unfold, Hempty.
Qed.

(** ** A repository at the root of the file system *)

Lemma startswith_other_head (s p : str) c :
  head s ≠ Some c -> startswith s (c :: p) = false.
Proof.
  destruct s as [|d s]; [done|]. cbn. intros Hd.
  destruct (N.eqb_spec c d) as [->|]; done.
Qed.

(** X16. When the cached root is ['/'], the lookup removes ['//'] from the
    path of the candidate, which an absolute path without a doubled slash
    does not contain: the path is looked up as it is, with its leading
    slash, and no cached path (none starts with a slash) matches it.  No
    candidate of such a repository gets an indicator. *)
Theorem find_in_cache_root_slash self candidate root :
  git_root self = Some root -> value root = lit "/" ->
  head (action__path candidate) = Some (chr "/") ->
  (forall i, startswith (drop i (action__path candidate)) (lit "//") = false) ->
  Forall (fun line => head (drop 3 line) ≠ Some (chr "/")) (cache self) ->
  find_in_cache self candidate = []
  /\ (forall w, is_root candidate ≠ Some true ->
                get w candidate self = (Ok (format self []), self, [])).
Proof.
  intros Hroot Hvalue Hhead Hdouble Hcache.
  assert (find_in_cache self candidate = []) as Hfind.
  { unfold find_in_cache, cache_key. rewrite Hroot. cbn [fstring].
    rewrite Hvalue. change (lit "/" ++ lit "/") with (lit "//").
    unfold replace. cbn [lit list_ascii_of_string fmap list_fmap].
    rewrite replace_from_no_occurrence by done.
    apply first_match_none. eapply Forall_impl; [done|].
    intros line Hline. cbn beta in Hline.
    destruct (action__path candidate) as [|c path]; [done|].
    injection Hhead as ->. cbn [app].
    by apply startswith_other_head. }
  split; [done|]. intros w Hnon.
  rewrite get_non_root_unfold, get_entry_unfold by done. cbv zeta.
  rewrite Hfind. by repeat case_bool_decide.
Qed.

Lemma find_in_cache_root_slash_witness :
  let self := with_git_root (Some {| ident := 1; value := lit "/" |})
                            example_column in
  let candidate := {| is_root := None; action__path := lit "/dirty.txt";
                      is_directory := false |} in
  lit "?? dirty.txt" ∈ cache self
  /\ find_in_cache self candidate = []
  /\ (forall w, is_root candidate ≠ Some true ->
                get w candidate self = (Ok (format self []), self, [])).
Proof.
  cbv zeta. split; [apply list_elem_of_In; cbn; auto|].
  apply (find_in_cache_root_slash
           (with_git_root (Some {| ident := 1; value := lit "/" |})
                          example_column)
           {| is_root := None; action__path := lit "/dirty.txt";
              is_directory := false |}
           {| ident := 1; value := lit "/" |}).
  - done.
  - done.
  - done.
  - intros i. cbn [action__path].
    do 11 (destruct i as [|i]; [by vm_compute|]). by vm_compute.
  - repeat constructor; by vm_compute.
Defined.

(** ** A file that the status reports *)

Lemma first_match_unique path items line :
  line ∈ items -> startswith (drop 3 line) path = true ->
  (forall other, other ∈ items -> startswith (drop 3 other) path = true ->
                 other = line) ->
  first_match path items = line.
Proof.
  intros Hline Hmatch Hunique.
  induction items as [|item items IH]; [by apply elem_of_nil in Hline|].
  cbn. destruct (startswith (drop 3 item) path) eqn:Hitem.
  - apply Hunique; [left|done].
  - apply elem_of_cons in Hline as [->|Hline]; [congruence|].
    apply IH; [done|]. intros other Hother. apply Hunique. by right.
Qed.

(** X17. From the status line to the label: for a file under the cached
    root whose remaining path does not contain the root again, if the cache
    has the line made of two codes, a separator and this remaining path,
    and this is the only cached line whose path starts with it, then
    [Column.get] returns the glyph that the settings give to the category
    of the two codes, padded to the column, without any external call. *)
Theorem get_reported_file w candidate self root (relative : str) x y sep
    icon :
  is_root candidate ≠ Some true ->
  is_directory candidate = false ->
  git_root self = Some root ->
  action__path candidate = value root ++ lit "/" ++ relative ->
  (forall i, startswith (drop i relative) (value root ++ lit "/") = false) ->
  [x; y; sep] ++ relative ∈ cache self ->
  (forall other, other ∈ cache self ->
                 startswith (drop 3 other) relative = true ->
                 other = [x; y; sep] ++ relative) ->
  indicators self !! get_indicator_name [x] [y] = Some icon ->
  get w candidate self = (Ok (format self icon), self, []).
Proof.
  intros Hroot Hfile Hgit Hpath Hrelative Hline Hunique Hicon.
  assert (find_in_cache self candidate = [x; y; sep] ++ relative) as Hfind.
  { unfold find_in_cache.
    rewrite (cache_key_under_root self candidate root relative) by done.
    rewrite Hfile, app_nil_r. apply first_match_unique; [done| |done].
    apply startswith_app. by exists []; rewrite app_nil_r. }
  rewrite get_non_root_unfold, get_entry_unfold by done. cbv zeta.
  rewrite Hfind.
  rewrite bool_decide_eq_false_2
    by (intros Hnil; rewrite Hnil in Hline; by apply elem_of_nil in Hline).
  rewrite bool_decide_eq_false_2 by done.
  cbn [app getitem lookup list_lookup mbind result_bind].
  unfold dict_getitem. by rewrite Hicon.
Qed.

Lemma get_reported_file_witness :
  let candidate := {| is_root := None; action__path := lit "/src/dirty.txt";
                      is_directory := false |} in
  is_root candidate ≠ Some true
  /\ get world_without_git candidate example_column
     = (Ok [0x272D%N; chr " "], example_column, []).
Proof.
  cbv zeta. split; [done|].
  apply (get_reported_file world_without_git
           {| is_root := None; action__path := lit "/src/dirty.txt";
              is_directory := false |}
           example_column {| ident := 1; value := lit "/src" |}
           (lit "dirty.txt") (chr "?") (chr "?") (chr " ") [0x272D%N]).
  - done.
  - done.
  - done.
  - by vm_compute.
  - intros i. do 10 (destruct i as [|i]; [by vm_compute|]). by vm_compute.
  - apply list_elem_of_In. cbn. auto.
  - intros other Hother Hstarts. apply list_elem_of_In in Hother.
    cbn in Hother.
    destruct Hother as [<-|[<-|[<-|[]]]];
      first [done | by vm_compute in Hstarts].
  - by vm_compute.
Defined.

(** ** What no call changes *)

Lemma get_settings w candidate self :
  exists c g, (get w candidate self).1.2 = with_cache c (with_git_root g self).
Proof.
  assert (exists c g, self = with_cache c (with_git_root g self)) as Hself.
  { exists (cache self), (git_root self). by destruct self. }
  destruct (decide (is_root candidate = Some true)) as [Hroot|Hroot].
  - rewrite get_root_unfold by done. cbv zeta.
    destruct (under_root self candidate); [done|].
    destruct (git_toplevel _ _) as [root|]; [|done].
    destruct (vim_command _ _); [|done].
    destruct (is_not _ _).
    + destruct (cache_status_outcome w (value <$> root)
                  (with_git_root root self)) as (r & lines & ->).
      cbn. by exists lines, root.
    + by rewrite get_entry_unfold.
  - by rewrite get_non_root_unfold, get_entry_unfold.
Qed.

(** X18. Whatever candidates are asked for and whatever the world answers,
    the calls of [Column.get] change nothing of the column but its cache and
    its root: the indicators, the column length and the choice to show
    ignored files stay what [__init__] read. *)
Theorem gets_settings steps self :
  let self' := (gets steps self).1.2 in
  indicators self' = indicators self
  /\ column_length self' = column_length self
  /\ show_ignored self' = show_ignored self.
Proof.
  cbv zeta. revert self.
  induction steps as [|[w candidate] steps IH]; intros self; [done|].
  cbn [gets].
  destruct (get_settings w candidate self) as (c & g & Hget).
  destruct (get w candidate self) as [[r self1] calls1]. cbn in Hget.
  specialize (IH self1).
  destruct (gets steps self1) as [[rs self2] calls2]. cbn in *.
  destruct IH as (-> & -> & ->). by subst self1.
Qed.
